(** * cbm-admin: the blog form, the blog list controller and the API client

    A shallow embedding of
    - [src/components/BlogForm.tsx]  (the form component),
    - the [Blogs] page               (list/detail controller),
    - the axios request interceptor  (bearer-token injection),
    together with the properties the specification states about them. *)

From Stdlib Require Import NArith ZArith Bool Lia.
From stdpp Require Import gmap strings list fin_maps.

#[local] Set Warnings "-clear-no-such-hyp".

Local Open Scope N_scope.

(** ** JavaScript strings

    A JavaScript string is a finite sequence of UTF-16 code units.  A code
    unit is modelled as an [N]; every JavaScript string is a [jsstring], and
    the theorems below quantify over all of [jsstring]. *)

Abbreviation jsstring := (list N).

(** Literals are written as Rocq strings and read code unit by code unit. *)
Definition js (s : string) : jsstring :=
  List.map (fun a => N.of_nat (Ascii.nat_of_ascii a)) (String.list_ascii_of_string s).

Arguments js : simpl never.

Definition HYPHEN : N := 45.

(** ECMAScript [WhiteSpace] and [LineTerminator] code units: the set
    matched by the regular-expression class [\s] and stripped by
    [String.prototype.trim]. *)
Definition isWhiteSpace (c : N) : bool :=
  (9 <=? c) && (c <=? 13)
  || (c =? 32) || (c =? 160) || (c =? 5760)
  || (8192 <=? c) && (c <=? 8202)
  || (c =? 8232) || (c =? 8233) || (c =? 8239) || (c =? 8287)
  || (c =? 12288) || (c =? 65279).

Definition isLowerAlpha (c : N) : bool := (97 <=? c) && (c <=? 122).
Definition isUpperAlpha (c : N) : bool := (65 <=? c) && (c <=? 90).
Definition isDigit (c : N) : bool := (48 <=? c) && (c <=? 57).
Definition isHyphen (c : N) : bool := c =? HYPHEN.

(** The character class [[a-z0-9\s-]]; [/[^a-z0-9\s-]/g] matches its
    complement. *)
Definition isKept (c : N) : bool :=
  isLowerAlpha c || isDigit c || isWhiteSpace c || isHyphen c.

(** The character class [[a-z0-9-]] of the specification. *)
Definition isSlugChar (c : N) : bool :=
  isLowerAlpha c || isDigit c || isHyphen c.

(** [s.trim()] *)
Fixpoint trimStart (s : jsstring) : jsstring :=
  match s with
  | [] => []
  | c :: r => if isWhiteSpace c then trimStart r else s
  end.

Definition trimEnd (s : jsstring) : jsstring := rev (trimStart (rev s)).

Definition trim (s : jsstring) : jsstring := trimEnd (trimStart s).

(** [s.replace(/[^a-z0-9\s-]/g, '')] *)
Definition removeDisallowed (s : jsstring) : jsstring := List.filter isKept s.

(** [s.replace(/C+/g, '-')] for a character class [C]: every maximal run of
    code units of the class becomes one hyphen.  [inRun] records that the
    code unit before the current one belonged to the class, so that the
    hyphen of the run has already been written. *)
Fixpoint replaceRunsFrom (cls : N -> bool) (inRun : bool) (s : jsstring) : jsstring :=
  match s with
  | [] => []
  | c :: r =>
      if cls c
      then (if inRun then replaceRunsFrom cls true r
            else HYPHEN :: replaceRunsFrom cls true r)
      else c :: replaceRunsFrom cls false r
  end.

Definition replaceRuns (cls : N -> bool) (s : jsstring) : jsstring :=
  replaceRunsFrom cls false s.

(** [String.prototype.toLowerCase] restricted to what is spelled out here:
    the Basic Latin capitals and the Latin-1 capitals.  The full Unicode
    mapping is not tabulated; the functions below take the case mapping as
    an argument ([toLowerCase]), and their theorems hold for every such
    mapping. *)
Definition lowerCodeUnit (c : N) : N :=
  if isUpperAlpha c then c + 32
  else if (192 <=? c) && (c <=? 222) && negb (c =? 215) then c + 32
  else c.

Definition toLowerCaseLatin (s : jsstring) : jsstring := List.map lowerCodeUnit s.

Section Slug.

Variable toLowerCase : jsstring -> jsstring.

(** BlogForm.tsx, lines 67-74.
<<
    const generateSlug = (title: string) => {
      return title
        .toLowerCase()
        .replace(/[^a-z0-9\s-]/g, '')
        .trim()
        .replace(/\s+/g, '-')
        .replace(/-+/g, '-');
    };
>> *)
Definition generateSlug (title : jsstring) : jsstring :=
  replaceRuns isHyphen
    (replaceRuns isWhiteSpace
       (trim (removeDisallowed (toLowerCase title)))).

(** The intermediate value after [.trim()]. *)
Definition slugCore (title : jsstring) : jsstring :=
  trim (removeDisallowed (toLowerCase title)).

End Slug.

(** Shape predicates on slugs. *)
Fixpoint noDoubleHyphen (s : jsstring) : bool :=
  match s with
  | [] => true
  | c :: r =>
      match r with
      | [] => true
      | d :: _ => negb (isHyphen c && isHyphen d) && noDoubleHyphen r
      end
  end.

Definition leadingHyphen (s : jsstring) : bool :=
  match head s with Some c => isHyphen c | None => false end.

Definition trailingHyphen (s : jsstring) : bool :=
  match last s with Some c => isHyphen c | None => false end.


(** JavaScript truthiness of a string: only the empty string is falsy. *)
Definition truthy (s : jsstring) : bool :=
  match s with [] => false | _ :: _ => true end.

(** [a || ''] for a possibly missing string, [a || []] for a possibly
    missing array, [a ?? d] for a possibly missing boolean. *)
Definition orEmpty (a : option jsstring) : jsstring :=
  match a with Some s => s | None => [] end.

Definition orNil {A} (a : option (list A)) : list A :=
  match a with Some l => l | None => [] end.

Definition nullish (a : option bool) (d : bool) : bool :=
  match a with Some b => b | None => d end.

(** ** Data model of the form (BlogForm.tsx) *)

Record BlogImage := mkBlogImage {
  url : jsstring;
  alt : jsstring;
  caption : jsstring;
  order : nat
}.

(** [CreateBlogData], with the ten properties the form state is built
    from (lines 12-23). *)
Record CreateBlogData := mkCreateBlogData {
  title : jsstring;
  excerpt : jsstring;
  content : jsstring;
  tags : list jsstring;
  featuredImage : jsstring;
  images : list BlogImage;
  isPublished : bool;
  isFeatured : bool;
  metaDescription : jsstring;
  slug : jsstring
}.

(** Modelled from the spec: the [Blog] interface of services/blogService,
    whose declaration is not part of the sources.  The properties are those
    the form and the controller read; each one the form guards with [||] or
    [??] may be missing ([None]). *)
Record Blog := mkBlog {
  _id : jsstring;
  blog_title : option jsstring;
  blog_excerpt : option jsstring;
  blog_content : option jsstring;
  blog_tags : option (list jsstring);
  blog_featuredImage : option jsstring;
  blog_images : option (list BlogImage);
  blog_isPublished : option bool;
  blog_isFeatured : option bool;
  blog_metaDescription : option jsstring;
  blog_slug : option jsstring
}.

(** A browser [File]: only its name and MIME type are looked at. *)
Record File := mkFile {
  file_name : jsstring;
  file_type : jsstring
}.

Record ImageInput := mkImageInput {
  input_url : jsstring;
  input_alt : jsstring;
  input_caption : jsstring
}.

(** The component state: one field per [useState] (lines 12-29).  [errors]
    is the [Record<string, string>] of validation messages. *)
Record FormState := mkFormState {
  formData : CreateBlogData;
  tagInput : jsstring;
  imageInput : ImageInput;
  errors : gmap string string;
  featuredImageFile : option File;
  featuredImagePreview : jsstring
}.

(** The initial value of [formData] (lines 12-23 and 49-60). *)
Definition emptyFormData : CreateBlogData :=
  {| title := []; excerpt := []; content := []; tags := [];
     featuredImage := []; images := []; isPublished := true;
     isFeatured := false; metaDescription := []; slug := [] |}.

Definition initialFormState : FormState :=
  {| formData := emptyFormData; tagInput := [];
     imageInput := mkImageInput [] [] [];
     errors := ∅; featuredImageFile := None; featuredImagePreview := [] |}.

(** State setters ([setFormData], [setTagInput], ...). *)
Definition setFormData (fd : CreateBlogData) (st : FormState) : FormState :=
  {| formData := fd; tagInput := tagInput st; imageInput := imageInput st;
     errors := errors st; featuredImageFile := featuredImageFile st;
     featuredImagePreview := featuredImagePreview st |}.

Definition setTagInput (t : jsstring) (st : FormState) : FormState :=
  {| formData := formData st; tagInput := t; imageInput := imageInput st;
     errors := errors st; featuredImageFile := featuredImageFile st;
     featuredImagePreview := featuredImagePreview st |}.

Definition setImageInput (i : ImageInput) (st : FormState) : FormState :=
  {| formData := formData st; tagInput := tagInput st; imageInput := i;
     errors := errors st; featuredImageFile := featuredImageFile st;
     featuredImagePreview := featuredImagePreview st |}.

Definition setErrors (e : gmap string string) (st : FormState) : FormState :=
  {| formData := formData st; tagInput := tagInput st; imageInput := imageInput st;
     errors := e; featuredImageFile := featuredImageFile st;
     featuredImagePreview := featuredImagePreview st |}.

Definition setFeaturedImageFile (f : option File) (st : FormState) : FormState :=
  {| formData := formData st; tagInput := tagInput st; imageInput := imageInput st;
     errors := errors st; featuredImageFile := f;
     featuredImagePreview := featuredImagePreview st |}.

Definition setFeaturedImagePreview (p : jsstring) (st : FormState) : FormState :=
  {| formData := formData st; tagInput := tagInput st; imageInput := imageInput st;
     errors := errors st; featuredImageFile := featuredImageFile st;
     featuredImagePreview := p |}.

(** Object spreads [{ ...prev, k: v }] on the form data. *)
Definition withSlug (v : jsstring) (fd : CreateBlogData) : CreateBlogData :=
  {| title := title fd; excerpt := excerpt fd; content := content fd;
     tags := tags fd; featuredImage := featuredImage fd; images := images fd;
     isPublished := isPublished fd; isFeatured := isFeatured fd;
     metaDescription := metaDescription fd; slug := v |}.

Definition withTags (v : list jsstring) (fd : CreateBlogData) : CreateBlogData :=
  {| title := title fd; excerpt := excerpt fd; content := content fd;
     tags := v; featuredImage := featuredImage fd; images := images fd;
     isPublished := isPublished fd; isFeatured := isFeatured fd;
     metaDescription := metaDescription fd; slug := slug fd |}.

Definition withImages (v : list BlogImage) (fd : CreateBlogData) : CreateBlogData :=
  {| title := title fd; excerpt := excerpt fd; content := content fd;
     tags := tags fd; featuredImage := featuredImage fd; images := v;
     isPublished := isPublished fd; isFeatured := isFeatured fd;
     metaDescription := metaDescription fd; slug := slug fd |}.

Definition withFeaturedImage (v : jsstring) (fd : CreateBlogData) : CreateBlogData :=
  {| title := title fd; excerpt := excerpt fd; content := content fd;
     tags := tags fd; featuredImage := v; images := images fd;
     isPublished := isPublished fd; isFeatured := isFeatured fd;
     metaDescription := metaDescription fd; slug := slug fd |}.

(** The inputs of the form.  An input element carries the name of the
    property of [CreateBlogData] it edits; text inputs, text areas and
    selects edit the string properties, checkboxes the boolean ones. *)
Inductive TextField :=
  FTitle | FExcerpt | FContent | FFeaturedImage | FMetaDescription | FSlug.

Inductive BoolField := FIsPublished | FIsFeatured.

Definition textFieldName (f : TextField) : string :=
  match f with
  | FTitle => "title"
  | FExcerpt => "excerpt"
  | FContent => "content"
  | FFeaturedImage => "featuredImage"
  | FMetaDescription => "metaDescription"
  | FSlug => "slug"
  end.

Definition boolFieldName (f : BoolField) : string :=
  match f with
  | FIsPublished => "isPublished"
  | FIsFeatured => "isFeatured"
  end.

(** [{ ...prev, [name]: value }] *)
Definition withText (f : TextField) (v : jsstring) (fd : CreateBlogData) : CreateBlogData :=
  {| title := match f with FTitle => v | _ => title fd end;
     excerpt := match f with FExcerpt => v | _ => excerpt fd end;
     content := match f with FContent => v | _ => content fd end;
     tags := tags fd;
     featuredImage := match f with FFeaturedImage => v | _ => featuredImage fd end;
     images := images fd;
     isPublished := isPublished fd;
     isFeatured := isFeatured fd;
     metaDescription := match f with FMetaDescription => v | _ => metaDescription fd end;
     slug := match f with FSlug => v | _ => slug fd end |}.

(** [{ ...prev, [name]: checked }] *)
Definition withBool (f : BoolField) (v : bool) (fd : CreateBlogData) : CreateBlogData :=
  {| title := title fd; excerpt := excerpt fd; content := content fd;
     tags := tags fd; featuredImage := featuredImage fd; images := images fd;
     isPublished := match f with FIsPublished => v | _ => isPublished fd end;
     isFeatured := match f with FIsFeatured => v | _ => isFeatured fd end;
     metaDescription := metaDescription fd; slug := slug fd |}.

(** The target of a change event: [type === 'checkbox'] with its [checked]
    flag, or any other type with its [value]. *)
Inductive ChangeEvent :=
| CheckboxChange (name : BoolField) (checked : bool)
| ValueChange (name : TextField) (value : jsstring).

Definition eventName (e : ChangeEvent) : string :=
  match e with
  | CheckboxChange f _ => boolFieldName f
  | ValueChange f _ => textFieldName f
  end.

(** Truthiness of [errors[name]]: a present, non-empty message. *)
Definition hasError (errs : gmap string string) (name : string) : bool :=
  match errs !! name with
  | Some msg => negb (String.eqb msg "")
  | None => false
  end.

(** What a promise settles to, and what a [catch] clause receives: an
    [Error] with its message, or some other thrown value. *)
Inductive Thrown :=
| ErrorObject (message : jsstring)
| OtherValue.

Inductive Settled :=
| Fulfilled
| Rejected (e : Thrown).

(** [try { await body } catch (error) { handler(error) }] *)
Definition tryCatch {E} (body : Settled) (handler : Thrown -> list E) : list E * Settled :=
  match body with
  | Fulfilled => ([], Fulfilled)
  | Rejected e => (handler e, Fulfilled)
  end.

(** [error instanceof Error ? error.message : fallback] *)
Definition messageOr (e : Thrown) (fallback : jsstring) : jsstring :=
  match e with
  | ErrorObject m => m
  | OtherValue => fallback
  end.

(** A read started on a [FileReader]: [reader.readAsDataURL(file)]. *)
Inductive FileRead :=
| ReadAsDataURL (file : File).

(** What the form does to the outside world. *)
Inductive FormEffect :=
| PreventDefault
| Alert (message : jsstring)
| ConsoleError (e : Thrown)
| OnSave (blogData : CreateBlogData) (featuredImageFile : option File).

(** [s.startsWith(p)] *)
Fixpoint startsWith (p s : jsstring) : bool :=
  match p, s with
  | [], _ => true
  | _ :: _, [] => false
  | a :: p', b :: s' => (a =? b) && startsWith p' s'
  end.

(** [arr.includes(x)] on an array of strings: strict equality with some
    element. *)
Definition includes (arr : list jsstring) (x : jsstring) : bool :=
  bool_decide (x ∈ arr).

(** [arr.filter((_, i) => i !== index)]: the callback sees the positions
    0, 1, 2, ...; [index] is whatever number the caller passes. *)
Fixpoint filterIndexFrom {A} (i : nat) (index : Z) (arr : list A) : list A :=
  match arr with
  | [] => []
  | x :: r =>
      if (Z.of_nat i =? index)%Z
      then filterIndexFrom (S i) index r
      else x :: filterIndexFrom (S i) index r
  end.

Definition filterIndex {A} (index : Z) (arr : list A) : list A :=
  filterIndexFrom 0 index arr.

(** ** The form component *)

Section BlogForm.

(** [String.prototype.toLowerCase]. *)
Variable toLowerCase : jsstring -> jsstring.

(** The props [blog] and [isLoading]; [onSave] is an argument of
    [handleSubmit]. *)
Variable blog : option Blog.
Variable isLoading : bool.

(** Lines 31-65, the effect with dependency list [[blog]]: it runs after
    the first render and after every render in which [blog] differs from
    the previous one. *)
Definition blogEffect (st : FormState) : FormState :=
  match blog with
  | Some b =>
      let initialFormData :=
        {| title := orEmpty (blog_title b);
           excerpt := orEmpty (blog_excerpt b);
           content := orEmpty (blog_content b);
           tags := orNil (blog_tags b);
           featuredImage := orEmpty (blog_featuredImage b);
           images := orNil (blog_images b);
           isPublished := nullish (blog_isPublished b) true;
           isFeatured := nullish (blog_isFeatured b) false;
           metaDescription := orEmpty (blog_metaDescription b);
           slug := orEmpty (blog_slug b) |} in
      setErrors ∅
        (setFeaturedImageFile None
           (setFeaturedImagePreview (orEmpty (blog_featuredImage b))
              (setFormData initialFormData st)))
  | None =>
      setErrors ∅
        (setFeaturedImageFile None
           (setFeaturedImagePreview []
              (setFormData emptyFormData st)))
  end.

(** Lines 76-88.  The two [setFormData] updaters are applied in order to
    the state of the current render; the guard reads [formData.slug] of
    that render. *)
Definition handleInputChange (e : ChangeEvent) (st : FormState) : FormState :=
  let st1 :=
    match e with
    | CheckboxChange name checked =>
        setFormData (withBool name checked (formData st)) st
    | ValueChange name value =>
        let st' := setFormData (withText name value (formData st)) st in
        match name with
        | FTitle =>
            if negb (bool_decide (is_Some blog))
               || negb (truthy (trim (slug (formData st))))
            then setFormData (withSlug (generateSlug toLowerCase value) (formData st')) st'
            else st'
        | _ => st'
        end
    end in
  if hasError (errors st) (eventName e)
  then setErrors (<[eventName e := ""%string]> (errors st1)) st1
  else st1.

(** Lines 90-98. *)
Definition handleAddTag (st : FormState) : FormState :=
  if truthy (trim (tagInput st))
     && negb (includes (tags (formData st)) (toLowerCase (trim (tagInput st))))
  then
    setTagInput []
      (setFormData
         (withTags (tags (formData st) ++ [toLowerCase (trim (tagInput st))])
            (formData st))
         st)
  else st.

(** Lines 100-105. *)
Definition handleRemoveTag (tagToRemove : jsstring) (st : FormState) : FormState :=
  setFormData
    (withTags
       (List.filter (fun tag => negb (bool_decide (tag = tagToRemove)))
          (tags (formData st)))
       (formData st))
    st.

(** Lines 107-120. *)
Definition handleAddImage (st : FormState) : FormState :=
  if truthy (trim (input_url (imageInput st)))
  then
    setImageInput (mkImageInput [] [] [])
      (setFormData
         (withImages
            (images (formData st) ++
               [ {| url := trim (input_url (imageInput st));
                    alt := trim (input_alt (imageInput st));
                    caption := trim (input_caption (imageInput st));
                    order := length (images (formData st)) |} ])
            (formData st))
         st)
  else st.

(** Lines 122-127. *)
Definition handleRemoveImage (index : Z) (st : FormState) : FormState :=
  setFormData (withImages (filterIndex index (images (formData st))) (formData st)) st.

(** Lines 129-139; [files] is [e.target.files].  The preview is written
    later, by the reader's [onload] callback ([previewLoaded]). *)
Definition handleFeaturedImageChange (files : list File) (st : FormState) : FormState :=
  match files with
  | file :: _ => setFeaturedImageFile (Some file) st
  | [] => st
  end.

(** Lines 143-154; [files] is [e.dataTransfer.files].  Besides the new
    state the handler gives the reads it starts: for a picture it creates
    a [FileReader], sets its [onload] and calls [readAsDataURL(file)]
    (lines 148-152); the preview is written when that read is done. *)
Definition handleDrop (files : list File) (st : FormState)
  : FormState * list FileRead :=
  match files with
  | file :: _ =>
      if startsWith (js "image/") (file_type file)
      then (setFeaturedImageFile (Some file) st, [ReadAsDataURL file])
      else (st, [])
  | [] => (st, [])
  end.

(** [reader.onload], lines 134-136 and 149-151: [ev.target.result] goes
    into the preview. *)
Definition previewLoaded (dataUrl : jsstring) (st : FormState) : FormState :=
  setFeaturedImagePreview dataUrl st.

(** A read that is done calls the [onload] set for it; [dataUrlOf] gives
    the data URL the reader makes of a file. *)
Definition readDone (dataUrlOf : File -> jsstring) (r : FileRead) (st : FormState)
  : FormState :=
  match r with
  | ReadAsDataURL file => previewLoaded (dataUrlOf file) st
  end.

(** A drop, followed by the end of the reads it started. *)
Definition handleDropAndRead (dataUrlOf : File -> jsstring)
    (files : list File) (st : FormState) : FormState :=
  foldl (fun s r => readDone dataUrlOf r s)
    (fst (handleDrop files st)) (snd (handleDrop files st)).

(** Lines 156-175: the mapping built in [newErrors]. *)
Definition newErrors (st : FormState) : gmap string string :=
  let fd := formData st in
  let e0 : gmap string string := ∅ in
  let e1 := if negb (truthy (trim (title fd)))
            then <["title" := "Title is required"]> e0 else e0 in
  let e2 := if negb (truthy (trim (excerpt fd)))
            then <["excerpt" := "Excerpt is required"]> e1 else e1 in
  let e3 := if negb (truthy (trim (content fd)))
            then <["content" := "Content is required"]> e2 else e2 in
  let hasNewFile := bool_decide (is_Some (featuredImageFile st)) in
  let hasImageUrl := truthy (trim (featuredImage fd)) in
  let hasExistingImage :=
    match blog with
    | Some b => truthy (orEmpty (blog_featuredImage b))
    | None => false
    end in
  let e4 := if negb hasNewFile && negb hasImageUrl && negb hasExistingImage
            then <["featuredImage" := "Featured image is required"]> e3 else e3 in
  if negb (truthy (trim (slug fd)))
  then <["slug" := "Slug is required"]> e4 else e4.

(** [validateForm]: stores the mapping with [setErrors] and returns
    whether it has no key. *)
Definition validateForm (st : FormState) : bool * FormState :=
  (Nat.eqb (size (newErrors st)) 0, setErrors (newErrors st) st).

(** The payload of line 188-191. *)
Definition submitData (st : FormState) : CreateBlogData :=
  withFeaturedImage
    (match featuredImageFile st with
     | Some _ => []
     | None => featuredImage (formData st)
     end)
    (formData st).

(** Lines 177-198.  [onSave] gives, for the arguments it is called with,
    what the promise it returns settles to.  The result is the state
    after the handler, what the handler did in order, and what the
    promise of the handler itself settles to. *)
Definition handleSubmit
    (onSave : CreateBlogData -> option File -> Settled)
    (st : FormState) : FormState * list FormEffect * Settled :=
  if isLoading then (st, [PreventDefault], Fulfilled)
  else
    let '(isValid, st1) := validateForm st in
    if negb isValid
    then (st1,
          [PreventDefault; Alert (js "Please fix the form errors before submitting")],
          Fulfilled)
    else
      let '(caught, settled) :=
        tryCatch (onSave (submitData st1) (featuredImageFile st1))
          (fun error =>
             [ConsoleError error;
              Alert (js "Error saving blog: " ++ messageOr error (js "Unknown error"))]) in
      (st1,
       [PreventDefault; OnSave (submitData st1) (featuredImageFile st1)] ++ caught,
       settled).

End BlogForm.

(** ** The list/detail controller (the [Blogs] page) *)

Inductive ViewMode := ModeList | ModeForm | ModeView.
Inductive FormMode := ModeCreate | ModeEdit.

(** One field per [useState] of the page (lines 9-19). *)
Record PageState := mkPageState {
  blogs : list Blog;
  loading : bool;
  formLoading : bool;
  error : option jsstring;
  viewMode : ViewMode;
  formMode : FormMode;
  selectedBlog : option Blog;
  searchTerm : jsstring;
  currentPage : nat;
  totalPages : nat;
  showDeleteConfirm : option jsstring
}.

Definition initialPageState : PageState :=
  {| blogs := []; loading := true; formLoading := false; error := None;
     viewMode := ModeList; formMode := ModeCreate; selectedBlog := None;
     searchTerm := []; currentPage := 1; totalPages := 1;
     showDeleteConfirm := None |}.

Record GetBlogsParams := mkGetBlogsParams {
  page : nat;
  limit : nat;
  search : option jsstring;
  sortBy : jsstring;
  sortOrder : jsstring;
  includeUnpublished : bool
}.

(** Calls into [blogService] and the console. *)
Inductive PageEffect :=
| GetBlogs (params : GetBlogsParams)
| CreateBlog (blogData : CreateBlogData) (featuredImageFile : option File)
| UpdateBlog (id : jsstring) (blogData : CreateBlogData) (featuredImageFile : option File)
| DeleteBlog (id : jsstring)
| ConsoleLog.

(** What [blogService.getBlogs] settles to. *)
Inductive Fetched :=
| FetchedPage (data : list Blog) (pages : nat)
| FetchFailed (e : Thrown).

Definition setLoading (v : bool) (st : PageState) : PageState :=
  {| blogs := blogs st; loading := v; formLoading := formLoading st;
     error := error st; viewMode := viewMode st; formMode := formMode st;
     selectedBlog := selectedBlog st; searchTerm := searchTerm st;
     currentPage := currentPage st; totalPages := totalPages st;
     showDeleteConfirm := showDeleteConfirm st |}.

Definition setFormLoading (v : bool) (st : PageState) : PageState :=
  {| blogs := blogs st; loading := loading st; formLoading := v;
     error := error st; viewMode := viewMode st; formMode := formMode st;
     selectedBlog := selectedBlog st; searchTerm := searchTerm st;
     currentPage := currentPage st; totalPages := totalPages st;
     showDeleteConfirm := showDeleteConfirm st |}.

Definition setError (v : option jsstring) (st : PageState) : PageState :=
  {| blogs := blogs st; loading := loading st; formLoading := formLoading st;
     error := v; viewMode := viewMode st; formMode := formMode st;
     selectedBlog := selectedBlog st; searchTerm := searchTerm st;
     currentPage := currentPage st; totalPages := totalPages st;
     showDeleteConfirm := showDeleteConfirm st |}.

Definition setViewMode (v : ViewMode) (st : PageState) : PageState :=
  {| blogs := blogs st; loading := loading st; formLoading := formLoading st;
     error := error st; viewMode := v; formMode := formMode st;
     selectedBlog := selectedBlog st; searchTerm := searchTerm st;
     currentPage := currentPage st; totalPages := totalPages st;
     showDeleteConfirm := showDeleteConfirm st |}.

Definition setFormMode (v : FormMode) (st : PageState) : PageState :=
  {| blogs := blogs st; loading := loading st; formLoading := formLoading st;
     error := error st; viewMode := viewMode st; formMode := v;
     selectedBlog := selectedBlog st; searchTerm := searchTerm st;
     currentPage := currentPage st; totalPages := totalPages st;
     showDeleteConfirm := showDeleteConfirm st |}.

Definition setSelectedBlog (v : option Blog) (st : PageState) : PageState :=
  {| blogs := blogs st; loading := loading st; formLoading := formLoading st;
     error := error st; viewMode := viewMode st; formMode := formMode st;
     selectedBlog := v; searchTerm := searchTerm st;
     currentPage := currentPage st; totalPages := totalPages st;
     showDeleteConfirm := showDeleteConfirm st |}.

Definition setBlogsPage (data : list Blog) (pages : nat) (st : PageState) : PageState :=
  {| blogs := data; loading := loading st; formLoading := formLoading st;
     error := error st; viewMode := viewMode st; formMode := formMode st;
     selectedBlog := selectedBlog st; searchTerm := searchTerm st;
     currentPage := currentPage st; totalPages := pages;
     showDeleteConfirm := showDeleteConfirm st |}.

Definition setShowDeleteConfirm (v : option jsstring) (st : PageState) : PageState :=
  {| blogs := blogs st; loading := loading st; formLoading := formLoading st;
     error := error st; viewMode := viewMode st; formMode := formMode st;
     selectedBlog := selectedBlog st; searchTerm := searchTerm st;
     currentPage := currentPage st; totalPages := totalPages st;
     showDeleteConfirm := v |}.

(** The handlers are asynchronous; each is run here to its end, with what
    the service calls it awaits settle to given as arguments. *)

(** Lines 21-42. *)
Definition loadBlogs (fetched : Fetched) (st : PageState) : PageState * list PageEffect :=
  let st1 := setError None (setLoading true st) in
  let call :=
    GetBlogs {| page := currentPage st; limit := 10;
                search := if truthy (searchTerm st) then Some (searchTerm st) else None;
                sortBy := js "publishedAt"; sortOrder := js "desc";
                includeUnpublished := true |} in
  let st2 :=
    match fetched with
    | FetchedPage data pages => setBlogsPage data pages st1
    | FetchFailed err => setError (Some (messageOr err (js "Failed to load blogs"))) st1
    end in
  (setLoading false st2, [call]).

(** Lines 49-63. *)
Definition handleCreateBlog (created : Settled) (fetched : Fetched)
    (blogData : CreateBlogData) (featuredImageFile : option File)
    (st : PageState) : PageState * list PageEffect * Settled :=
  let st1 := setFormLoading true st in
  let '(st2, effs) :=
    match created with
    | Fulfilled =>
        let '(st', effs') := loadBlogs fetched (setViewMode ModeList st1) in
        (st', CreateBlog blogData featuredImageFile :: effs')
    | Rejected err =>
        (setError (Some (messageOr err (js "Failed to create blog"))) st1,
         [CreateBlog blogData featuredImageFile])
    end in
  (setFormLoading false st2, effs, Fulfilled).

(** Lines 66-90. *)
Definition handleUpdateBlog (updated : Settled) (fetched : Fetched)
    (blogData : CreateBlogData) (featuredImageFile : option File)
    (st : PageState) : PageState * list PageEffect * Settled :=
  let st1 := setFormLoading true st in
  let fail err effs :=
    (setError (Some (messageOr err (js "Failed to update blog"))) st1,
     effs ++ [ConsoleLog]) in
  let '(st2, effs) :=
    match selectedBlog st with
    | Some b =>
        if truthy (_id b)
        then
          match updated with
          | Fulfilled =>
              let '(st', effs') :=
                loadBlogs fetched (setSelectedBlog None (setViewMode ModeList st1)) in
              (st', [ConsoleLog; ConsoleLog; UpdateBlog (_id b) blogData featuredImageFile] ++ effs')
          | Rejected err =>
              fail err [ConsoleLog; ConsoleLog; UpdateBlog (_id b) blogData featuredImageFile]
          end
        else fail (ErrorObject (js "No blog selected for update")) []
    | None => fail (ErrorObject (js "No blog selected for update")) []
    end in
  (setFormLoading false st2, effs, Fulfilled).

(** Lines 92-100. *)
Definition handleDeleteBlog (deleted : Settled) (fetched : Fetched)
    (id : jsstring) (st : PageState) : PageState * list PageEffect :=
  match deleted with
  | Fulfilled =>
      let '(st', effs') := loadBlogs fetched (setShowDeleteConfirm None st) in
      (st', DeleteBlog id :: effs')
  | Rejected err =>
      (setError (Some (messageOr err (js "Failed to delete blog"))) st, [DeleteBlog id])
  end.

(** Lines 102-123. *)
Definition handleEditBlog (b : Blog) (st : PageState) : PageState :=
  setViewMode ModeForm (setFormMode ModeEdit (setSelectedBlog (Some b) st)).

Definition handleViewBlog (b : Blog) (st : PageState) : PageState :=
  setViewMode ModeView (setSelectedBlog (Some b) st).

Definition handleNewBlog (st : PageState) : PageState :=
  setViewMode ModeForm (setFormMode ModeCreate (setSelectedBlog None st)).

Definition handleCancel (st : PageState) : PageState :=
  setError None (setSelectedBlog None (setViewMode ModeList st)).

(** The [blog] prop handed to the form (line 145). *)
Definition formBlogProp (st : PageState) : option Blog :=
  match formMode st with
  | ModeEdit => selectedBlog st
  | ModeCreate => None
  end.

(** What the user, or a settled request, can make the page do.  The list,
    its rows and the confirmation dialog are not part of the sources. *)
Inductive PageEvent :=
| ClickNew
| ClickEdit (b : Blog)
| ClickView (b : Blog)
| ClickCancel
| SaveFromForm (blogData : CreateBlogData) (featuredImageFile : option File)
    (saved : Settled) (fetched : Fetched)
| ClickDeleteInDetail
| ClickDeleteInRow (b : Blog)
| ClickConfirmDelete (deleted : Settled) (fetched : Fetched)
| ClickDismissDelete.

(** Modelled from the spec: the list view and the confirmation dialog
    ("Delete: requires an explicit confirmation step (tracked as a held
    identifier) before the actual delete call fires").  A row's delete
    button holds the identifier of its row; the dialog exists while an
    identifier is held, its confirm button passes the held identifier to
    [handleDeleteBlog], its other button lets go of it.  The handlers, the
    form's [onSave] (line 146) and the delete button of the detail view
    (lines 289-302, only rendered in view mode with a selected blog) are
    those of the sources. *)
Definition pageStep (st : PageState) (ev : PageEvent) : PageState * list PageEffect :=
  match ev with
  | ClickNew => (handleNewBlog st, [])
  | ClickEdit b => (handleEditBlog b st, [])
  | ClickView b => (handleViewBlog b st, [])
  | ClickCancel => (handleCancel st, [])
  | SaveFromForm blogData file saved fetched =>
      match viewMode st with
      | ModeForm =>
          match formMode st with
          | ModeCreate => fst (handleCreateBlog saved fetched blogData file st)
          | ModeEdit => fst (handleUpdateBlog saved fetched blogData file st)
          end
      | _ => (st, [])
      end
  | ClickDeleteInDetail =>
      match viewMode st, selectedBlog st with
      | ModeView, Some b => (setShowDeleteConfirm (Some (_id b)) st, [])
      | _, _ => (st, [])
      end
  | ClickDeleteInRow b => (setShowDeleteConfirm (Some (_id b)) st, [])
  | ClickConfirmDelete deleted fetched =>
      match showDeleteConfirm st with
      | Some id => handleDeleteBlog deleted fetched id st
      | None => (st, [])
      end
  | ClickDismissDelete => (setShowDeleteConfirm None st, [])
  end.

(** One step of a run of the page. *)
Record PageStep := mkPageStep {
  before : PageState;
  event : PageEvent;
  effects : list PageEffect;
  after : PageState
}.

Fixpoint runPage (st : PageState) (evs : list PageEvent) : list PageStep :=
  match evs with
  | [] => []
  | ev :: rest =>
      let '(st', effs) := pageStep st ev in
      {| before := st; event := ev; effects := effs; after := st' |} :: runPage st' rest
  end.

Fixpoint pageAfter (st : PageState) (evs : list PageEvent) : PageState :=
  match evs with
  | [] => st
  | ev :: rest => pageAfter (fst (pageStep st ev)) rest
  end.

(** The step puts [id] into the confirmation-held state. *)
Definition requestsDelete (id : jsstring) (s : PageStep) : Prop :=
  match event s with
  | ClickDeleteInRow b => _id b = id
  | ClickDeleteInDetail =>
      viewMode (before s) = ModeView /\
      exists b, selectedBlog (before s) = Some b /\ _id b = id
  | _ => False
  end.

(** ** The API client: the request interceptor *)

(** Header names are compared without regard to case by axios' header
    object. *)
Definition lowerAscii (a : Ascii.ascii) : Ascii.ascii :=
  let n := Ascii.nat_of_ascii a in
  if (Nat.leb 65 n && Nat.leb n 90)%bool then Ascii.ascii_of_nat (n + 32) else a.

Fixpoint lowerName (s : string) : string :=
  match s with
  | EmptyString => EmptyString
  | String a r => String (lowerAscii a) (lowerName r)
  end.

Definition sameHeaderName (a b : string) : bool :=
  String.eqb (lowerName a) (lowerName b).

(** The part of axios' [AxiosHeaders] the interceptor relies on: [set]
    stores a value under a header name, and a header is read back by name.
    The class is axios', not this repository's; the interceptor is
    verified against this interface. *)
Class HeaderObject (H : Type) := {
  headerGet : H -> string -> option jsstring;
  headerSet : string -> jsstring -> H -> H
}.

(** Read-back laws a header object may obey: the header [set] wrote
    reads back under its name, whatever the case of the letters, and no
    header of another name is touched.  axios' own [set] obeys them only
    for a header that is not switched off and a value its normalisation
    leaves alone (see [axiosSet]); they are the stated condition of the
    properties that assume them. *)
Record HeaderLaws (H : Type) `{HeaderObject H} : Prop := {
  headerGet_set_same :
    forall (h : H) name name' v,
      sameHeaderName name name' = true ->
      headerGet (headerSet name v h) name' = Some v;
  headerGet_set_other :
    forall (h : H) name name' v,
      sameHeaderName name name' = false ->
      headerGet (headerSet name v h) name' = headerGet h name'
}.

(** A header object kept as a map from lower-cased names to values. *)
Definition LowerCaseHeaders : Type := gmap string jsstring.

Definition lowerCaseGet (h : LowerCaseHeaders) (name : string) : option jsstring :=
  (h : gmap string jsstring) !! lowerName name.

Definition lowerCaseSet (name : string) (v : jsstring) (h : LowerCaseHeaders)
  : LowerCaseHeaders :=
  <[lowerName name := v]> (h : gmap string jsstring).

#[export] Instance lowerCaseHeaderObject : HeaderObject LowerCaseHeaders := {|
  headerGet := lowerCaseGet;
  headerSet := lowerCaseSet
|}.

Section Interceptor.

Context {H : Type} `{HeaderObject H}.

(** [config.headers]: a plain object, or an [AxiosHeaders] instance
    (the one whose [set] is a function). *)
Inductive Headers :=
| PlainObject (props : gmap string jsstring)
| AxiosHeaders (h : H).

(** The request configuration; everything but [headers] is carried
    along. *)
Record RequestConfig := mkRequestConfig {
  baseURL : jsstring;
  requestUrl : jsstring;
  method : jsstring;
  headers : option Headers;
  data : jsstring
}.

(** The surroundings the interceptor reads: whether [window] exists, and
    the content of [localStorage]. *)
Record Ambient := mkAmbient {
  hasWindow : bool;
  localStorage : gmap string jsstring
}.

(** [localStorage.getItem(key)] *)
Definition getItem (env : Ambient) (key : string) : option jsstring :=
  localStorage env !! key.

Definition withHeaders (hs : option Headers) (config : RequestConfig) : RequestConfig :=
  {| baseURL := baseURL config; requestUrl := requestUrl config;
     method := method config; headers := hs; data := data config |}.

(** Reading a header of a configuration, whichever container it has. *)
Definition readHeader (config : RequestConfig) (name : string) : option jsstring :=
  match headers config with
  | None => None
  | Some (PlainObject props) => props !! name
  | Some (AxiosHeaders h) => headerGet h name
  end.

(** Lines 337-354 of the client. *)
Definition requestInterceptor (env : Ambient) (config : RequestConfig) : RequestConfig :=
  let token := if hasWindow env then getItem env "admin_token" else None in
  match token with
  | Some t =>
      if truthy t
      then
        let hs := match headers config with Some hs => hs | None => PlainObject ∅ end in
        match hs with
        | AxiosHeaders h =>
            withHeaders (Some (AxiosHeaders (headerSet "Authorization" (js "Bearer " ++ t) h))) config
        | PlainObject props =>
            withHeaders (Some (PlainObject (<["Authorization" := js "Bearer " ++ t]> props))) config
        end
      else config
  | None => config
  end.

End Interceptor.

(** ** What the specification asks of a slug *)

(** Lowercase, only [[a-z0-9-]], no hyphen at either end, no two hyphens
    in a row. *)
Definition wellFormedSlug (s : jsstring) : Prop :=
  toLowerCaseLatin s = s /\
  Forall (fun c => isSlugChar c = true) s /\
  leadingHyphen s = false /\
  trailingHyphen s = false /\
  noDoubleHyphen s = true.

(** The calls of the save callback among the effects of a handler. *)
Definition saveCalls (effs : list FormEffect) : list (CreateBlogData * option File) :=
  omap (fun e => match e with OnSave d f => Some (d, f) | _ => None end) effs.

(** The notifications ([alert]) among the effects of a handler. *)
Definition alerts (effs : list FormEffect) : list jsstring :=
  omap (fun e => match e with Alert m => Some m | _ => None end) effs.

(** The five keys of the validation mapping. *)
Definition allErrorKeys : gset string :=
  {[ "title"; "excerpt"; "content"; "slug"; "featuredImage" ]}.

(** "All required fields empty": the four text fields are blank, no file
    is staged, no image URL is typed, and the edited entity, if any, has no
    featured image. *)
Definition nothingFilledIn (blog : option Blog) (st : FormState) : Prop :=
  trim (title (formData st)) = [] /\
  trim (excerpt (formData st)) = [] /\
  trim (content (formData st)) = [] /\
  trim (slug (formData st)) = [] /\
  featuredImageFile st = None /\
  trim (featuredImage (formData st)) = [] /\
  match blog with
  | Some b => orEmpty (blog_featuredImage b) = []
  | None => True
  end.

(** ** Example runs *)

(** The end-to-end example of the specification, typed into an empty
    create form: title "Hello World!", excerpt "e", content "c", image URL
    "http://x/img.png". *)
Definition helloWorldDraft : FormState :=
  handleInputChange toLowerCaseLatin None
    (ValueChange FFeaturedImage (js "http://x/img.png"))
    (handleInputChange toLowerCaseLatin None (ValueChange FContent (js "c"))
       (handleInputChange toLowerCaseLatin None (ValueChange FExcerpt (js "e"))
          (handleInputChange toLowerCaseLatin None
             (ValueChange FTitle (js "Hello World!"))
             initialFormState))).

(** The same draft after a picture was picked in the file input. *)
Definition helloWorldDraftWithFile : FormState :=
  handleFeaturedImageChange [mkFile (js "cover.png") (js "image/png")]
    helloWorldDraft.

(** A save callback that succeeds, and one that fails. *)
Definition savingSucceeds : CreateBlogData -> option File -> Settled :=
  fun _ _ => Fulfilled.

Definition savingFails : CreateBlogData -> option File -> Settled :=
  fun _ _ => Rejected (ErrorObject (js "Network Error")).

(** A tag set contains [t] "under case-insensitive comparison": some
    element has the same lowercase form as [t]. *)
Definition includesIgnoringCase (toLowerCase : jsstring -> jsstring)
    (arr : list jsstring) (t : jsstring) : Prop :=
  exists tag, tag ∈ arr /\ toLowerCase tag = toLowerCase t.

(** An entity whose only tag is "News", opened in the form, with "news"
    typed into the tag input. *)
Definition newsBlog : Blog :=
  {| _id := js "b1";
     blog_title := Some (js "Budget"); blog_excerpt := Some (js "e");
     blog_content := Some (js "c"); blog_tags := Some [js "News"];
     blog_featuredImage := Some (js "http://x/img.png"); blog_images := None;
     blog_isPublished := Some true; blog_isFeatured := None;
     blog_metaDescription := None; blog_slug := Some (js "budget") |}.

Definition newsDraft : FormState :=
  setTagInput (js "news") (blogEffect (Some newsBlog) initialFormState).

(** A draft with two pictures, added one after the other through the
    image row of the form. *)
Definition twoImagesDraft : FormState :=
  handleAddImage
    (setImageInput (mkImageInput (js "http://x/b.png") (js "b") [])
       (handleAddImage
          (setImageInput (mkImageInput (js "http://x/a.png") (js "a") [])
             initialFormState))).

(** The first picture is removed, then a third one is added. *)
Definition removedThenAdded : FormState :=
  handleAddImage
    (setImageInput (mkImageInput (js "http://x/c.png") (js "c") [])
       (handleRemoveImage 0 twoImagesDraft)).

(** A run of the page: open an entity, press delete in the detail view,
    go back to the list, confirm in the dialog. *)
Definition deleteRun : list PageEvent :=
  [ClickView newsBlog; ClickDeleteInDetail; ClickCancel;
   ClickConfirmDelete Fulfilled (FetchedPage [] 1)].

Definition deleteRunSteps : list PageStep := runPage initialPageState deleteRun.

(** A browser with a token, and a request as axios hands it over. *)
Definition loggedIn : Ambient :=
  {| hasWindow := true; localStorage := {[ "admin_token" := js "abc123" ]} |}.

Definition jsonRequest : @RequestConfig LowerCaseHeaders :=
  {| baseURL := js "https://api2.brelis.in/"; requestUrl := js "/blogs";
     method := js "get";
     headers := Some (AxiosHeaders
                        (lowerCaseSet "Content-Type" (js "application/json") ∅));
     data := [] |}.

(** ** Further notions used in the properties of the code *)

(** What [validateForm] checks (lines 159-171): the four text fields are
    not blank, and a picture comes from somewhere: a staged file, a typed
    URL that is not blank, or a non-empty [featuredImage] of the edited
    entity. *)
Definition submittable (blog : option Blog) (st : FormState) : Prop :=
  trim (title (formData st)) <> [] /\
  trim (excerpt (formData st)) <> [] /\
  trim (content (formData st)) <> [] /\
  trim (slug (formData st)) <> [] /\
  (is_Some (featuredImageFile st) \/
   trim (featuredImage (formData st)) <> [] \/
   exists b, blog = Some b /\ orEmpty (blog_featuredImage b) <> []).

(** The [onSave] prop the page hands to the form (line 146):
    [formMode === 'create' ? handleCreateBlog : handleUpdateBlog], with
    what the awaited service calls settle to. *)
Definition pageOnSave (st : PageState) (saved : Settled) (fetched : Fetched)
  : CreateBlogData -> option File -> Settled :=
  fun blogData featuredImageFile =>
    match formMode st with
    | ModeCreate => snd (handleCreateBlog saved fetched blogData featuredImageFile st)
    | ModeEdit => snd (handleUpdateBlog saved fetched blogData featuredImageFile st)
    end.

(** The form in edit mode has an entity to edit. *)
Definition editHasSelection (st : PageState) : Prop :=
  viewMode st = ModeForm -> formMode st = ModeEdit -> is_Some (selectedBlog st).

(** ** axios' header object

    axios is a dependency of the client, not part of its sources.  Its
    [AxiosHeaders] is modelled after lib/core/AxiosHeaders.js of axios 1.x:
    a header object holds, for each header name (compared without regard
    to case), a text or [false], the value that switches a header off.
    [set(header, value)], called without the rewrite flag as the
    interceptor does, runs
<<
      const key = utils.findKey(self, lHeader);
      if (!key || self[key] === undefined || _rewrite === true
          || (_rewrite === undefined && self[key] !== false)) {
        self[key || _header] = normalizeValue(_value);
      }
>>
    so a header that is switched off stays off, and a value is stored as
    [normalizeValue] makes it.  What [normalizeValue] does to a text
    depends on the version of axios; it is an argument of the model. *)
Inductive HeaderValue :=
| HeaderText (v : jsstring)
| HeaderOff.

(** The header object as a map from lower-cased names to values. *)
Definition AxiosHeaderMap : Type := gmap string HeaderValue.

Definition axiosGet (h : AxiosHeaderMap) (name : string) : option jsstring :=
  match (h : gmap string HeaderValue) !! lowerName name with
  | Some (HeaderText v) => Some v
  | _ => None
  end.

Definition axiosSet (normalizeValue : jsstring -> jsstring)
    (name : string) (v : jsstring) (h : AxiosHeaderMap) : AxiosHeaderMap :=
  match (h : gmap string HeaderValue) !! lowerName name with
  | Some HeaderOff => h
  | _ => <[lowerName name := HeaderText (normalizeValue v)]> (h : gmap string HeaderValue)
  end.

Definition axiosHeaderObject (normalizeValue : jsstring -> jsstring)
  : HeaderObject AxiosHeaderMap :=
  {| headerGet := axiosGet; headerSet := axiosSet normalizeValue |}.

(** The interceptor with axios' header object. *)
Definition axiosInterceptor (normalizeValue : jsstring -> jsstring)
    (env : Ambient) (config : @RequestConfig AxiosHeaderMap)
  : @RequestConfig AxiosHeaderMap :=
  @requestInterceptor AxiosHeaderMap (axiosHeaderObject normalizeValue) env config.

(** A normalisation that leaves the text as it is. *)
Definition keepValue : jsstring -> jsstring := fun v => v.

(** A request as axios hands it over, and one whose Authorization header
    has been switched off ([headers: { Authorization: false }]). *)
Definition axiosRequest : @RequestConfig AxiosHeaderMap :=
  {| baseURL := js "https://api2.brelis.in/"; requestUrl := js "/blogs";
     method := js "get";
     headers := Some (AxiosHeaders
                        ({[ "content-type" := HeaderText (js "application/json") ]}
                         : gmap string HeaderValue));
     data := [] |}.

Definition authorizationOffRequest : @RequestConfig AxiosHeaderMap :=
  {| baseURL := js "https://api2.brelis.in/"; requestUrl := js "/blogs";
     method := js "get";
     headers := Some (AxiosHeaders
                        ({[ "content-type" := HeaderText (js "application/json");
                            "authorization" := HeaderOff ]}
                         : gmap string HeaderValue));
     data := [] |}.

(** The same request with a plain object for its headers. *)
Definition plainRequest : @RequestConfig AxiosHeaderMap :=
  {| baseURL := js "https://api2.brelis.in/"; requestUrl := js "/blogs";
     method := js "get";
     headers := Some (PlainObject
                        {[ "Content-Type" := js "application/json" ]});
     data := [] |}.

(** * Properties *)

(** ** Character classes *)

Ltac char_classes :=
  unfold isKept, isSlugChar, isWhiteSpace, isLowerAlpha, isUpperAlpha, isDigit,
    isHyphen, HYPHEN in *;
  repeat match goal with
    | H : _ = false |- _ => apply not_true_iff_false in H
    | |- _ = false => apply not_true_iff_false
    end;
  rewrite ?orb_true_iff, ?andb_true_iff, ?N.leb_le, ?N.eqb_eq in *.

Lemma whitespace_not_slugChar c : isWhiteSpace c = true -> isSlugChar c = false.
Proof. intros Hw. char_classes. lia. Qed.

Lemma kept_not_whitespace_slugChar c :
  isKept c = true -> isWhiteSpace c = false -> isSlugChar c = true.
Proof. intros Hk Hw. char_classes. tauto. Qed.

Lemma slugChar_kept c : isSlugChar c = true -> isKept c = true.
Proof. intros Hk. char_classes. tauto. Qed.

Lemma hyphen_is_HYPHEN c : isHyphen c = true -> c = HYPHEN.
Proof. unfold isHyphen. apply N.eqb_eq. Qed.

Lemma slugChar_HYPHEN : isSlugChar HYPHEN = true.
Proof. reflexivity. Qed.

Lemma slugChar_lower c : isSlugChar c = true -> lowerCodeUnit c = c.
Proof.
  intros Hs. unfold lowerCodeUnit.
  destruct (isUpperAlpha c) eqn:Hu.
  - char_classes. lia.
  - destruct ((192 <=? c) && (c <=? 222) && negb (c =? 215)) eqn:Hl; [|done].
    rewrite !andb_true_iff in Hl. destruct Hl as [[Hl _] _].
    char_classes. lia.
Qed.

(** ** [trim] *)

Lemma trimStart_suffix s : trimStart s `suffix_of` s.
Proof.
  induction s as [|c r IH]; simpl; [done|].
  destruct (isWhiteSpace c); [by apply suffix_cons_r | done].
Qed.

Lemma trimStart_head s c : head (trimStart s) = Some c -> isWhiteSpace c = false.
Proof.
  induction s as [|d r IH]; simpl; [done|].
  destruct (isWhiteSpace d) eqn:Hd; [done|].
  simpl. intros [= <-]. done.
Qed.

Lemma trimStart_snoc s c :
  isWhiteSpace c = false -> trimStart (s ++ [c]) = trimStart s ++ [c].
Proof.
  intros Hc. induction s as [|d r IH]; simpl.
  - by rewrite Hc.
  - destruct (isWhiteSpace d); [done|reflexivity].
Qed.

Lemma trimStart_nonws c r : isWhiteSpace c = false -> trimStart (c :: r) = c :: r.
Proof. intros Hc. simpl. by rewrite Hc. Qed.

Lemma last_rev {A} (l : list A) : last (rev l) = head l.
Proof. destruct l as [|a l]; [done|]. simpl. by rewrite last_snoc. Qed.

Lemma head_rev {A} (l : list A) : head (rev l) = last l.
Proof. rewrite <- (rev_involutive l) at 2. by rewrite last_rev. Qed.

Lemma trimEnd_last s c : last (trimEnd s) = Some c -> isWhiteSpace c = false.
Proof. unfold trimEnd. rewrite last_rev. apply trimStart_head. Qed.

Lemma trimEnd_cons_nonws c r :
  isWhiteSpace c = false -> trimEnd (c :: r) = c :: trimEnd r.
Proof.
  intros Hc. unfold trimEnd. simpl.
  rewrite trimStart_snoc by done. by rewrite rev_app_distr.
Qed.

Lemma trimEnd_prefix s : trimEnd s `prefix_of` s.
Proof.
  unfold trimEnd. destruct (trimStart_suffix (rev s)) as [p Hp].
  exists (rev p). rewrite <- rev_app_distr, <- Hp. by rewrite rev_involutive.
Qed.

Lemma trim_head s c : head (trim s) = Some c -> isWhiteSpace c = false.
Proof.
  unfold trim. intros Hh.
  destruct (trimStart s) as [|d r] eqn:Hs; [done|].
  assert (Hd : isWhiteSpace d = false) by (apply (trimStart_head s); by rewrite Hs).
  rewrite trimEnd_cons_nonws in Hh by done. simpl in Hh. congruence.
Qed.

Lemma trim_last s c : last (trim s) = Some c -> isWhiteSpace c = false.
Proof. apply trimEnd_last. Qed.

Lemma trim_Forall (P : N -> Prop) s : Forall P s -> Forall P (trim s).
Proof.
  intros HP. unfold trim.
  destruct (trimEnd_prefix (trimStart s)) as [q Hq].
  destruct (trimStart_suffix s) as [p Hp].
  rewrite Hp, Hq in HP.
  apply Forall_app in HP as [_ HP]. by apply Forall_app in HP as [HP _].
Qed.

(** ** [replace] of runs *)

Lemma replaceRunsFrom_Forall (P : N -> Prop) cls b s :
  P HYPHEN ->
  Forall (fun c => cls c = false -> P c) s ->
  Forall P (replaceRunsFrom cls b s).
Proof.
  intros Hh Hs. revert b.
  induction Hs as [|c r Hc _ IH]; intros b; simpl; [constructor|].
  destruct (cls c) eqn:Hcls.
  - destruct b; [apply IH | constructor; [done | apply IH]].
  - constructor; [by apply Hc | apply IH].
Qed.

Lemma replaceRunsFrom_head cls c r :
  head (replaceRunsFrom cls false (c :: r)) = Some (if cls c then HYPHEN else c).
Proof. simpl. by destruct (cls c). Qed.

Lemma replaceRunsFrom_last cls s : forall b pre,
  (b = true -> last pre = Some HYPHEN) ->
  s <> [] ->
  last (pre ++ replaceRunsFrom cls b s)
  = (fun c => if cls c then HYPHEN else c) <$> last s.
Proof.
  induction s as [|c r IH]; intros b pre Hb Hne; [done|].
  simpl replaceRunsFrom.
  destruct r as [|d r'].
  - simpl. destruct (cls c), b; simpl;
      rewrite ?app_nil_r, ?last_snoc; auto.
  - assert (Hlast : last (c :: d :: r') = last (d :: r')) by done.
    rewrite Hlast.
    destruct (cls c) eqn:Hc.
    + destruct b.
      * apply IH; [done | done].
      * rewrite (cons_middle HYPHEN), app_assoc.
        apply IH; [intros _; apply last_snoc | done].
    + rewrite (cons_middle c), app_assoc.
      apply IH; [done | done].
Qed.

Lemma replaceRuns_last cls s :
  last (replaceRuns cls s) = (fun c => if cls c then HYPHEN else c) <$> last s.
Proof.
  destruct s as [|c r]; [done|].
  apply (replaceRunsFrom_last cls (c :: r) false []); done.
Qed.

Lemma replaceRuns_head cls s :
  head (replaceRuns cls s) = (fun c => if cls c then HYPHEN else c) <$> head s.
Proof. destruct s as [|c r]; [done|]. apply replaceRunsFrom_head. Qed.

Lemma replaceRunsFrom_hyphen_shape s : forall b,
  noDoubleHyphen (replaceRunsFrom isHyphen b s) = true /\
  (b = true -> leadingHyphen (replaceRunsFrom isHyphen b s) = false).
Proof.
  induction s as [|c r IH]; intros b; [done|].
  simpl replaceRunsFrom. destruct (isHyphen c) eqn:Hc.
  - destruct b; [apply IH|].
    split; [|done].
    destruct (IH true) as [Hn Hl]. specialize (Hl eq_refl).
    destruct (replaceRunsFrom isHyphen true r) as [|d t] eqn:Hr; [done|].
    unfold leadingHyphen in Hl. simpl in Hl.
    change (negb (isHyphen HYPHEN && isHyphen d) && noDoubleHyphen (d :: t) = true).
    by rewrite Hl, Hn, andb_false_r.
  - split; [|intros _; unfold leadingHyphen; simpl; done].
    destruct (IH false) as [Hn _].
    destruct (replaceRunsFrom isHyphen false r) as [|d t] eqn:Hr; [done|].
    change (negb (isHyphen c && isHyphen d) && noDoubleHyphen (d :: t) = true).
    by rewrite Hc, Hn.
Qed.

(** ** [generateSlug] *)

Lemma slugCore_kept lower T :
  Forall (fun c => isKept c = true) (slugCore lower T).
Proof.
  unfold slugCore. apply trim_Forall. unfold removeDisallowed.
  apply List.Forall_forall. intros c Hc. by apply List.filter_In in Hc as [_ Hc].
Qed.

Lemma generateSlug_slugChars lower T :
  Forall (fun c => isSlugChar c = true) (generateSlug lower T).
Proof.
  unfold generateSlug, replaceRuns.
  apply replaceRunsFrom_Forall; [apply slugChar_HYPHEN|].
  apply Forall_impl with (P := fun c => isSlugChar c = true); [|auto].
  apply replaceRunsFrom_Forall; [apply slugChar_HYPHEN|].
  eapply Forall_impl; [apply slugCore_kept|].
  intros c Hk Hw. by apply kept_not_whitespace_slugChar.
Qed.

Lemma slugChars_lowercase s :
  Forall (fun c => isSlugChar c = true) s -> toLowerCaseLatin s = s.
Proof.
  induction 1 as [|c r Hc _ IH]; [done|].
  unfold toLowerCaseLatin in *. simpl. by rewrite IH, slugChar_lower.
Qed.

Lemma generateSlug_head lower T :
  head (generateSlug lower T) = head (slugCore lower T).
Proof.
  unfold generateSlug. fold (slugCore lower T).
  rewrite !replaceRuns_head.
  destruct (head (slugCore lower T)) as [c|] eqn:Hh; [|done].
  apply trim_head in Hh. simpl. rewrite Hh.
  destruct (isHyphen c) eqn:Hc; [|done]. by rewrite (hyphen_is_HYPHEN c).
Qed.

Lemma generateSlug_last lower T :
  last (generateSlug lower T) = last (slugCore lower T).
Proof.
  unfold generateSlug. fold (slugCore lower T).
  rewrite !replaceRuns_last.
  destruct (last (slugCore lower T)) as [c|] eqn:Hh; [|done].
  apply trim_last in Hh. simpl. rewrite Hh.
  destruct (isHyphen c) eqn:Hc; [|done]. by rewrite (hyphen_is_HYPHEN c).
Qed.

(** The end-to-end example of the specification: the title "Hello World!"
    gives the slug "hello-world". *)
Example generateSlug_hello_world :
  generateSlug toLowerCaseLatin (js "Hello World!") = js "hello-world".
Proof. reflexivity. Qed.

(** C1, as stated, fails: the title "-a" keeps its hyphen, and the slug
    "-a" starts with one. *)
Lemma generateSlug_leading_hyphen_counterexample :
  generateSlug toLowerCaseLatin (js "-a") = js "-a" /\
  ~ wellFormedSlug (generateSlug toLowerCaseLatin (js "-a")).
Proof.
  split; [reflexivity|].
  intros (_ & _ & Hlead & _). vm_compute in Hlead. discriminate.
Qed.

(** A hyphen can also stay at the end: "a -" gives "a-". *)
Example generateSlug_trailing_hyphen :
  generateSlug toLowerCaseLatin (js "a -") = js "a-".
Proof. reflexivity. Qed.

(** C1 (amended): for every title and every case mapping, the slug is
    lowercase, has only characters of [[a-z0-9-]] and no two hyphens in a
    row; it starts (ends) with a hyphen exactly when the title, once
    lowercased, stripped of the disallowed characters and trimmed, starts
    (ends) with a hyphen. *)
Theorem generateSlug_shape (toLowerCase : jsstring -> jsstring) (T : jsstring) :
  let s := generateSlug toLowerCase T in
  toLowerCaseLatin s = s /\
  Forall (fun c => isSlugChar c = true) s /\
  noDoubleHyphen s = true /\
  leadingHyphen s = leadingHyphen (slugCore toLowerCase T) /\
  trailingHyphen s = trailingHyphen (slugCore toLowerCase T).
Proof.
  intros s. subst s.
  pose proof (generateSlug_slugChars toLowerCase T) as Hc.
  split; [by apply slugChars_lowercase|].
  split; [done|].
  split; [apply (replaceRunsFrom_hyphen_shape _ false)|].
  unfold leadingHyphen, trailingHyphen.
  by rewrite generateSlug_head, generateSlug_last.
Qed.

(** ** Validation and submission *)

Lemma submitData_setErrors e st : submitData (setErrors e st) = submitData st.
Proof. reflexivity. Qed.

Lemma handleSubmit_valid blog onSave st :
  fst (validateForm blog st) = true ->
  handleSubmit blog false onSave st
  = (setErrors (newErrors blog st) st,
     [PreventDefault; OnSave (submitData st) (featuredImageFile st)]
       ++ fst (tryCatch (onSave (submitData st) (featuredImageFile st))
                 (fun error =>
                    [ConsoleError error;
                     Alert (js "Error saving blog: " ++ messageOr error (js "Unknown error"))])),
     Fulfilled).
Proof.
  unfold handleSubmit, validateForm. cbn [fst snd]. intros ->. cbn [negb].
  change (submitData (setErrors (newErrors blog st) st)) with (submitData st).
  change (featuredImageFile (setErrors (newErrors blog st) st))
    with (featuredImageFile st).
  by destruct (onSave (submitData st) (featuredImageFile st)).
Qed.

Lemma handleSubmit_invalid blog onSave st :
  fst (validateForm blog st) = false ->
  handleSubmit blog false onSave st
  = (setErrors (newErrors blog st) st,
     [PreventDefault; Alert (js "Please fix the form errors before submitting")],
     Fulfilled).
Proof. unfold handleSubmit, validateForm. cbn [fst snd]. by intros ->. Qed.

Lemma handleSubmit_loading blog onSave st :
  handleSubmit blog true onSave st = (st, [PreventDefault], Fulfilled).
Proof. reflexivity. Qed.

(** The promise of the submit handler never rejects. *)
Lemma handleSubmit_never_rejects blog isLoading onSave st :
  snd (handleSubmit blog isLoading onSave st) = Fulfilled.
Proof.
  destruct isLoading; [done|].
  destruct (fst (validateForm blog st)) eqn:Hv.
  - by rewrite handleSubmit_valid.
  - by rewrite handleSubmit_invalid.
Qed.

(** C2: when [handleSubmit] gets past validation, the save callback is
    called exactly once; its first argument is the draft with
    [featuredImage] emptied if a file is staged, and the draft itself if
    none is; its second argument is the staged file, or undefined. *)
Theorem handleSubmit_payload blog isLoading onSave st :
  isLoading = false ->
  fst (validateForm blog st) = true ->
  exists payload,
    saveCalls (snd (fst (handleSubmit blog isLoading onSave st)))
    = [(payload, featuredImageFile st)] /\
    payload = withFeaturedImage (featuredImage payload) (formData st) /\
    (is_Some (featuredImageFile st) -> featuredImage payload = []) /\
    (featuredImageFile st = None -> payload = formData st).
Proof.
  intros -> Hv. exists (submitData st).
  rewrite handleSubmit_valid by done.
  split.
  { simpl. by destruct (onSave (submitData st) (featuredImageFile st)). }
  split; [done|].
  unfold submitData. split.
  - by intros [f ->].
  - intros ->. by destruct (formData st).
Qed.

Example helloWorldDraft_slug : slug (formData helloWorldDraft) = js "hello-world".
Proof. reflexivity. Qed.

Lemma helloWorldDraft_valid : fst (validateForm None helloWorldDraft) = true.
Proof. vm_compute. reflexivity. Defined.

Lemma helloWorldDraftWithFile_valid :
  fst (validateForm None helloWorldDraftWithFile) = true.
Proof. vm_compute. reflexivity. Defined.

(** The end-to-end example: without a staged file the callback gets the
    typed image URL. *)
Example helloWorld_submit :
  saveCalls (snd (fst (handleSubmit None false savingSucceeds helloWorldDraft)))
  = [({| title := js "Hello World!"; excerpt := js "e"; content := js "c";
         tags := []; featuredImage := js "http://x/img.png"; images := [];
         isPublished := true; isFeatured := false; metaDescription := [];
         slug := js "hello-world" |}, None)].
Proof. vm_compute. reflexivity. Qed.

Lemma handleSubmit_payload_witness :
  fst (validateForm None helloWorldDraftWithFile) = true /\
  exists payload,
    saveCalls (snd (fst (handleSubmit None false savingSucceeds helloWorldDraftWithFile)))
    = [(payload, featuredImageFile helloWorldDraftWithFile)] /\
    payload = withFeaturedImage (featuredImage payload) (formData helloWorldDraftWithFile) /\
    (is_Some (featuredImageFile helloWorldDraftWithFile) -> featuredImage payload = []) /\
    (featuredImageFile helloWorldDraftWithFile = None ->
     payload = formData helloWorldDraftWithFile).
Proof.
  split; [exact helloWorldDraftWithFile_valid|].
  exact (handleSubmit_payload None false savingSucceeds helloWorldDraftWithFile
           eq_refl helloWorldDraftWithFile_valid).
Defined.

Lemma nothingFilledIn_newErrors blog st :
  nothingFilledIn blog st ->
  newErrors blog st
  = <["slug" := "Slug is required"]>
      (<["featuredImage" := "Featured image is required"]>
         (<["content" := "Content is required"]>
            (<["excerpt" := "Excerpt is required"]>
               (<["title" := "Title is required"]> ∅)))).
Proof.
  intros (Ht & He & Hc & Hs & Hf & Hu & Hb).
  unfold newErrors. rewrite Ht, He, Hc, Hs, Hf, Hu. cbn [truthy negb].
  assert (Hex : match blog with
                | Some b => truthy (orEmpty (blog_featuredImage b))
                | None => false
                end = false).
  { destruct blog as [b|]; [by rewrite Hb | done]. }
  rewrite Hex. reflexivity.
Qed.

Lemma nothingFilledIn_invalid blog st :
  nothingFilledIn blog st -> fst (validateForm blog st) = false.
Proof.
  intros Hn. unfold validateForm. cbn [fst].
  rewrite (nothingFilledIn_newErrors blog st Hn). reflexivity.
Qed.

Lemma nothingFilledIn_initial : nothingFilledIn None initialFormState.
Proof. unfold nothingFilledIn. simpl. tauto. Defined.

(** C3, as stated, fails: while a save is in progress ([isLoading]) the
    handler returns at line 179, before validating, and the error mapping
    stays as it was (here: empty). *)
Lemma handleSubmit_loading_counterexample :
  nothingFilledIn None initialFormState /\
  dom (errors (fst (fst (handleSubmit None true savingSucceeds initialFormState))))
  <> allErrorKeys.
Proof.
  split; [exact nothingFilledIn_initial|].
  rewrite handleSubmit_loading. cbn [fst errors initialFormState].
  rewrite dom_empty_L. unfold allErrorKeys. intros Heq.
  assert (Hin : "title" ∈ (∅ : gset string)) by (rewrite Heq; set_solver).
  set_solver.
Qed.

(** C3 (amended): submitting with nothing filled in never calls the save
    callback; unless a save is in progress, the error mapping it leaves
    has exactly the five keys title, excerpt, content, slug and
    featuredImage, and the user is told to fix the form. *)
Theorem handleSubmit_nothingFilledIn blog isLoading onSave st :
  nothingFilledIn blog st ->
  let result := handleSubmit blog isLoading onSave st in
  saveCalls (snd (fst result)) = [] /\
  (isLoading = false ->
     dom (errors (fst (fst result))) = allErrorKeys /\
     size (errors (fst (fst result))) = 5%nat /\
     alerts (snd (fst result)) = [js "Please fix the form errors before submitting"]).
Proof.
  intros Hn result. subst result. destruct isLoading.
  - rewrite handleSubmit_loading. split; [done|]. discriminate.
  - rewrite handleSubmit_invalid by by apply nothingFilledIn_invalid.
    split; [done|]. intros _. cbn [fst snd errors setErrors].
    rewrite (nothingFilledIn_newErrors blog st Hn).
    split; [|split; [|done]].
    + rewrite !dom_insert_L, dom_empty_L. unfold allErrorKeys. set_solver.
    + reflexivity.
Qed.

Lemma handleSubmit_nothingFilledIn_witness :
  let result := handleSubmit None false savingSucceeds initialFormState in
  saveCalls (snd (fst result)) = [] /\
  (false = false ->
     dom (errors (fst (fst result))) = allErrorKeys /\
     size (errors (fst (fst result))) = 5%nat /\
     alerts (snd (fst result)) = [js "Please fix the form errors before submitting"]).
Proof.
  exact (handleSubmit_nothingFilledIn None false savingSucceeds initialFormState
           nothingFilledIn_initial).
Defined.

(** C9: when the save callback rejects, the submit handler catches the
    rejection and shows it in an alert; its own promise fulfils; the
    state it leaves is the state validation left, the one a successful save
    leaves too: the draft, the staged file, the preview and the two input
    rows are those from before the submit, and the error mapping is the
    one validation stored. *)
Theorem handleSubmit_rejection_caught blog isLoading onSave st e :
  isLoading = false ->
  fst (validateForm blog st) = true ->
  onSave (submitData st) (featuredImageFile st) = Rejected e ->
  let result := handleSubmit blog isLoading onSave st in
  let st' := fst (fst result) in
  snd result = Fulfilled /\
  saveCalls (snd (fst result)) = [(submitData st, featuredImageFile st)] /\
  alerts (snd (fst result))
  = [js "Error saving blog: " ++ messageOr e (js "Unknown error")] /\
  st' = snd (validateForm blog st) /\
  st' = fst (fst (handleSubmit blog isLoading (fun _ _ => Fulfilled) st)) /\
  formData st' = formData st /\
  featuredImageFile st' = featuredImageFile st /\
  featuredImagePreview st' = featuredImagePreview st /\
  tagInput st' = tagInput st /\
  imageInput st' = imageInput st /\
  errors st' = newErrors blog st.
Proof.
  intros -> Hv Hrej result st'. subst st' result.
  rewrite !handleSubmit_valid by done. rewrite Hrej.
  repeat split; reflexivity.
Qed.

Lemma handleSubmit_rejection_caught_witness :
  let result := handleSubmit None false savingFails helloWorldDraft in
  let st' := fst (fst result) in
  snd result = Fulfilled /\
  saveCalls (snd (fst result))
  = [(submitData helloWorldDraft, featuredImageFile helloWorldDraft)] /\
  alerts (snd (fst result))
  = [js "Error saving blog: "
       ++ messageOr (ErrorObject (js "Network Error")) (js "Unknown error")] /\
  st' = snd (validateForm None helloWorldDraft) /\
  st' = fst (fst (handleSubmit None false (fun _ _ => Fulfilled) helloWorldDraft)) /\
  formData st' = formData helloWorldDraft /\
  featuredImageFile st' = featuredImageFile helloWorldDraft /\
  featuredImagePreview st' = featuredImagePreview helloWorldDraft /\
  tagInput st' = tagInput helloWorldDraft /\
  imageInput st' = imageInput helloWorldDraft /\
  errors st' = newErrors None helloWorldDraft.
Proof.
  exact (handleSubmit_rejection_caught None false savingFails helloWorldDraft
           (ErrorObject (js "Network Error")) eq_refl helloWorldDraft_valid eq_refl).
Defined.

(** The callbacks the page hands to the form ([handleCreateBlog],
    [handleUpdateBlog]) catch the failures of the service themselves: their
    promises always fulfil, and a failed save leaves the page in form
    mode with the message stored in [error]. *)
Lemma handleCreateBlog_never_rejects created fetched blogData file st :
  snd (handleCreateBlog created fetched blogData file st) = Fulfilled.
Proof.
  unfold handleCreateBlog. destruct created; [|done].
  by destruct (loadBlogs fetched _).
Qed.

Lemma handleUpdateBlog_never_rejects updated fetched blogData file st :
  snd (handleUpdateBlog updated fetched blogData file st) = Fulfilled.
Proof.
  unfold handleUpdateBlog.
  destruct (selectedBlog st) as [b|]; [|done].
  destruct (truthy (_id b)); [|done].
  destruct updated; [|done]. by destruct (loadBlogs fetched _).
Qed.

Lemma handleCreateBlog_failure_keeps_form e fetched blogData file st :
  let st' := fst (fst (handleCreateBlog (Rejected e) fetched blogData file st)) in
  viewMode st' = viewMode st /\
  selectedBlog st' = selectedBlog st /\
  formMode st' = formMode st /\
  formLoading st' = false /\
  error st' = Some (messageOr e (js "Failed to create blog")).
Proof. repeat split; reflexivity. Qed.

(** ** The effect on the [blog] prop *)

(** The two input rows are not touched by the effect. *)
Lemma blogEffect_inputs blog st :
  tagInput (blogEffect blog st) = tagInput st /\
  imageInput (blogEffect blog st) = imageInput st.
Proof. by destruct blog. Qed.

(** An entity with every field set, opened over a draft that has a
    staged file: each field of the entity arrives in the draft. *)
Example blogEffect_newsBlog :
  let st' := blogEffect (Some newsBlog) helloWorldDraftWithFile in
  formData st'
  = {| title := js "Budget"; excerpt := js "e"; content := js "c";
       tags := [js "News"]; featuredImage := js "http://x/img.png";
       images := []; isPublished := true; isFeatured := false;
       metaDescription := []; slug := js "budget" |} /\
  featuredImageFile helloWorldDraftWithFile
  = Some (mkFile (js "cover.png") (js "image/png")) /\
  featuredImageFile st' = None /\
  featuredImagePreview st' = js "http://x/img.png" /\
  errors st' = ∅.
Proof. repeat split; reflexivity. Qed.

(** C4: the effect that runs on every change of [blog] sets each field
    of the draft to the field of the new entity when the entity has it,
    and to its default when it is missing (empty text, no tags, no
    pictures, published, not featured); with no entity every field gets
    its default.  It drops the staged file, sets the preview to the
    entity's image and empties the error mapping.  Nothing of the
    earlier draft, file, preview or errors survives: two forms in any two
    states agree on them after the effect. *)
Theorem blogEffect_resets (blog : option Blog) (st : FormState) :
  let st' := blogEffect blog st in
  formData st'
  = match blog with
    | Some b =>
        {| title := match blog_title b with Some v => v | None => [] end;
           excerpt := match blog_excerpt b with Some v => v | None => [] end;
           content := match blog_content b with Some v => v | None => [] end;
           tags := match blog_tags b with Some v => v | None => [] end;
           featuredImage :=
             match blog_featuredImage b with Some v => v | None => [] end;
           images := match blog_images b with Some v => v | None => [] end;
           isPublished :=
             match blog_isPublished b with Some v => v | None => true end;
           isFeatured :=
             match blog_isFeatured b with Some v => v | None => false end;
           metaDescription :=
             match blog_metaDescription b with Some v => v | None => [] end;
           slug := match blog_slug b with Some v => v | None => [] end |}
    | None =>
        {| title := []; excerpt := []; content := []; tags := [];
           featuredImage := []; images := []; isPublished := true;
           isFeatured := false; metaDescription := []; slug := [] |}
    end /\
  (forall id t e c g f i p q m u,
     blog = Some {| _id := id; blog_title := Some t; blog_excerpt := Some e;
                    blog_content := Some c; blog_tags := Some g;
                    blog_featuredImage := Some f; blog_images := Some i;
                    blog_isPublished := Some p; blog_isFeatured := Some q;
                    blog_metaDescription := Some m; blog_slug := Some u |} ->
     formData st'
     = {| title := t; excerpt := e; content := c; tags := g;
          featuredImage := f; images := i; isPublished := p; isFeatured := q;
          metaDescription := m; slug := u |} /\
     featuredImagePreview st' = f) /\
  featuredImageFile st' = None /\
  errors st' = ∅ /\
  featuredImagePreview st'
  = match blog with
    | Some b => match blog_featuredImage b with Some v => v | None => [] end
    | None => []
    end /\
  forall other : FormState,
    formData (blogEffect blog other) = formData st' /\
    featuredImageFile (blogEffect blog other) = featuredImageFile st' /\
    featuredImagePreview (blogEffect blog other) = featuredImagePreview st' /\
    errors (blogEffect blog other) = errors st'.
Proof.
  intros st'. subst st'.
  split; [destruct blog as [b|]; reflexivity|].
  split.
  { intros id t e c g f i p q m u Heq. subst blog. split; reflexivity. }
  destruct blog as [b|]; repeat split; reflexivity.
Qed.

(** ** [handleInputChange] *)

(** C5, as stated, fails at its last clause: the slug input is a
    non-checkbox field other than the title, and a change of it stores
    the typed value in the slug (line 82). *)
Lemma handleInputChange_slug_counterexample :
  slug (formData newsDraft) = js "budget" /\
  slug (formData (handleInputChange toLowerCaseLatin (Some newsBlog)
                    (ValueChange FSlug (js "x")) newsDraft))
  = js "x" /\
  slug (formData (handleInputChange toLowerCaseLatin (Some newsBlog)
                    (ValueChange FSlug (js "x")) newsDraft))
  <> slug (formData newsDraft).
Proof. repeat split; try reflexivity. vm_compute. discriminate. Qed.

(** C5 (amended): a change of the title input stores the title and regenerates the
    slug from it, unless an entity is being edited and the slug of the
    current render is not blank, in which case the slug stays; a change
    of the slug input stores what was typed; a change of any other text
    input leaves the slug alone. *)
Theorem handleInputChange_slug (toLowerCase : jsstring -> jsstring)
    (blog : option Blog) (name : TextField) (value : jsstring) (st : FormState) :
  let st' := handleInputChange toLowerCase blog (ValueChange name value) st in
  slug (formData st')
  = match name with
    | FTitle =>
        match blog with
        | Some _ =>
            if truthy (trim (slug (formData st)))
            then slug (formData st)
            else generateSlug toLowerCase value
        | None => generateSlug toLowerCase value
        end
    | FSlug => value
    | _ => slug (formData st)
    end /\
  (name = FTitle -> title (formData st') = value).
Proof.
  unfold handleInputChange.
  destruct (hasError (errors st) (eventName (ValueChange name value)));
    destruct name; cbn -[generateSlug trim]; (split; [|done || auto]);
    try reflexivity;
    destruct blog as [b|]; cbn -[generateSlug trim];
    try destruct (truthy (trim (slug (formData st)))); reflexivity.
Qed.

(** A checkbox never changes the slug. *)
Lemma handleInputChange_checkbox_slug toLowerCase blog name checked st :
  slug (formData (handleInputChange toLowerCase blog (CheckboxChange name checked) st))
  = slug (formData st).
Proof.
  unfold handleInputChange.
  by destruct (hasError (errors st) (eventName (CheckboxChange name checked))).
Qed.

(** A change touches the draft and the error mapping only. *)
Lemma handleInputChange_frame toLowerCase blog e st :
  let st' := handleInputChange toLowerCase blog e st in
  tagInput st' = tagInput st /\
  imageInput st' = imageInput st /\
  featuredImageFile st' = featuredImageFile st /\
  featuredImagePreview st' = featuredImagePreview st.
Proof.
  unfold handleInputChange.
  destruct (hasError (errors st) (eventName e)); destruct e as [n c|n v];
    try destruct n; cbn -[generateSlug trim];
    try destruct (negb (bool_decide (is_Some blog))
                  || negb (truthy (trim (slug (formData st)))));
    repeat split; reflexivity.
Qed.

(** ** Tags *)

Lemma includes_true arr x : includes arr x = true <-> x ∈ arr.
Proof. unfold includes. apply bool_decide_eq_true. Qed.

Lemma includes_false arr x : includes arr x = false <-> x ∉ arr.
Proof. unfold includes. apply bool_decide_eq_false. Qed.

Lemma truthy_false s : truthy s = false <-> s = [].
Proof. by destruct s. Qed.

Lemma truthy_true s : truthy s = true <-> s <> [].
Proof. by destruct s. Qed.

Lemma handleAddTag_noop toLowerCase st :
  trim (tagInput st) = [] \/
  toLowerCase (trim (tagInput st)) ∈ tags (formData st) ->
  handleAddTag toLowerCase st = st.
Proof.
  unfold handleAddTag. intros [Hb|Hin].
  - by rewrite Hb.
  - apply includes_true in Hin. rewrite Hin. by rewrite andb_false_r.
Qed.

Lemma handleAddTag_appends toLowerCase st :
  trim (tagInput st) <> [] ->
  toLowerCase (trim (tagInput st)) ∉ tags (formData st) ->
  handleAddTag toLowerCase st
  = setTagInput []
      (setFormData
         (withTags (tags (formData st) ++ [toLowerCase (trim (tagInput st))])
            (formData st))
         st).
Proof.
  unfold handleAddTag. intros Hb Hin.
  apply truthy_true in Hb. apply includes_false in Hin. by rewrite Hb, Hin.
Qed.

Example newsDraft_tags :
  tags (formData newsDraft) = [js "News"] /\
  tags (formData (handleAddTag toLowerCaseLatin newsDraft)) = [js "News"; js "news"].
Proof. split; reflexivity. Qed.

Example handleAddTag_twice :
  let once := handleAddTag toLowerCaseLatin (setTagInput (js " Rust ") initialFormState) in
  let twice := handleAddTag toLowerCaseLatin (setTagInput (js " Rust ") once) in
  tags (formData once) = [js "rust"] /\ tagInput once = [] /\
  tags (formData twice) = [js "rust"].
Proof. repeat split; reflexivity. Qed.

(** As long as every stored tag is in lowercase, the exact comparison
    and the case-insensitive one agree; [handleAddTag] keeps the tags that
    way, the effect on [blog] takes them over unchecked. *)
Lemma includesIgnoringCase_lowercase toLowerCase arr x :
  (forall s, toLowerCase (toLowerCase s) = toLowerCase s) ->
  Forall (fun tag => toLowerCase tag = tag) arr ->
  includesIgnoringCase toLowerCase arr (toLowerCase x) <-> toLowerCase x ∈ arr.
Proof.
  intros Hidem Hlow. split.
  - intros (tag & Hin & Heq). rewrite Hidem in Heq.
    rewrite List.Forall_forall in Hlow.
    rewrite <- Heq, (Hlow tag); [done|]. by apply list_elem_of_In.
  - intros Hin. by exists (toLowerCase x).
Qed.

Lemma handleAddTag_keeps_lowercase toLowerCase st :
  (forall s, toLowerCase (toLowerCase s) = toLowerCase s) ->
  Forall (fun tag => toLowerCase tag = tag) (tags (formData st)) ->
  Forall (fun tag => toLowerCase tag = tag)
    (tags (formData (handleAddTag toLowerCase st))).
Proof.
  intros Hidem Hlow. unfold handleAddTag.
  destruct (truthy (trim (tagInput st))
            && negb (includes (tags (formData st))
                       (toLowerCase (trim (tagInput st))))); [|done].
  cbn [formData setTagInput setFormData tags withTags].
  apply Forall_app. split; [done|]. constructor; [apply Hidem | constructor].
Qed.

(** C6, as stated, fails twice.  The comparison is exact: with the tag
    "News" taken over from the edited entity, the input "news" is present
    under case-insensitive comparison and is appended all the same.  And
    a blank input, which no tag set contains, is not appended: nothing
    changes, the tag input included. *)
Lemma handleAddTag_case_counterexample :
  (includesIgnoringCase toLowerCaseLatin (tags (formData newsDraft))
     (toLowerCaseLatin (trim (tagInput newsDraft))) /\
   tags (formData (handleAddTag toLowerCaseLatin newsDraft))
   <> tags (formData newsDraft)) /\
  (let blank := setTagInput (js "  ") initialFormState in
   ~ includesIgnoringCase toLowerCaseLatin (tags (formData blank))
       (toLowerCaseLatin (trim (tagInput blank))) /\
   tags (formData (handleAddTag toLowerCaseLatin blank))
   <> tags (formData blank) ++ [toLowerCaseLatin (trim (tagInput blank))] /\
   tagInput (handleAddTag toLowerCaseLatin blank) <> []).
Proof.
  split; [split|split; [|split]].
  - exists (js "News"). split; [|reflexivity].
    change (tags (formData newsDraft)) with [js "News"]. set_solver.
  - destruct newsDraft_tags as [-> ->]. discriminate.
  - intros (tag & Hin & _). cbn in Hin. by apply elem_of_nil in Hin.
  - discriminate.
  - discriminate.
Qed.

(** C6 (amended): if the trimmed input is empty, or the trimmed,
    lowercased input is an element of the tag set (exact comparison),
    [handleAddTag] changes nothing; otherwise it appends the trimmed,
    lowercased input, empties the tag input and changes nothing else.
    Adding the same input a second time leaves the tag set as the first
    addition left it. *)
Theorem handleAddTag_spec (toLowerCase : jsstring -> jsstring) (st : FormState) :
  let t := toLowerCase (trim (tagInput st)) in
  let st' := handleAddTag toLowerCase st in
  (trim (tagInput st) = [] \/ t ∈ tags (formData st) -> st' = st) /\
  (trim (tagInput st) <> [] /\ t ∉ tags (formData st) ->
     tags (formData st') = tags (formData st) ++ [t] /\
     tagInput st' = [] /\
     formData st' = withTags (tags (formData st')) (formData st) /\
     setTagInput (tagInput st) (setFormData (formData st) st') = st) /\
  tags (formData (handleAddTag toLowerCase (setTagInput (tagInput st) st')))
  = tags (formData st').
Proof.
  intros t st'. subst t st'. split; [apply handleAddTag_noop|]. split.
  - intros [Hb Hin]. rewrite handleAddTag_appends by done.
    repeat split; try reflexivity. by destruct st.
  - destruct (decide (trim (tagInput st) = [])) as [Hb|Hb].
    { rewrite (handleAddTag_noop toLowerCase st) by auto.
      rewrite handleAddTag_noop; [done|]. by left. }
    destruct (decide (toLowerCase (trim (tagInput st)) ∈ tags (formData st)))
      as [Hin|Hin].
    { rewrite (handleAddTag_noop toLowerCase st) by auto.
      rewrite handleAddTag_noop; [done|]. by right. }
    rewrite (handleAddTag_appends toLowerCase st) by done.
    rewrite handleAddTag_noop; [done|]. right.
    cbn [tagInput setTagInput formData setFormData tags withTags].
    set_solver.
Qed.

(** ** Images *)

Lemma filterIndexFrom_beyond {A} (l : list A) : forall k index,
  (index < Z.of_nat k)%Z -> filterIndexFrom k index l = l.
Proof.
  induction l as [|x r IH]; intros k index Hlt; [done|].
  simpl. destruct (Z.eqb_spec (Z.of_nat k) index) as [He|_]; [lia|].
  f_equal. apply IH. lia.
Qed.

Lemma filterIndexFrom_delete {A} (l : list A) : forall k i,
  filterIndexFrom k (Z.of_nat (k + i)) l = delete i l.
Proof.
  induction l as [|x r IH]; intros k i; [done|].
  simpl. destruct i as [|i].
  - rewrite Nat.add_0_r, Z.eqb_refl. apply filterIndexFrom_beyond. lia.
  - destruct (Z.eqb_spec (Z.of_nat k) (Z.of_nat (k + S i))) as [He|_]; [lia|].
    replace (k + S i)%nat with (S k + i)%nat by lia.
    change (delete (S i) (x :: r)) with (x :: delete i r).
    f_equal. apply IH.
Qed.

Lemma filterIndex_delete {A} (l : list A) (i : nat) :
  filterIndex (Z.of_nat i) l = delete i l.
Proof. apply (filterIndexFrom_delete l 0 i). Qed.

Lemma filterIndex_negative {A} (l : list A) (index : Z) :
  (index < 0)%Z -> filterIndex index l = l.
Proof. intros Hlt. apply filterIndexFrom_beyond. lia. Qed.

Lemma handleAddImage_appends st :
  trim (input_url (imageInput st)) <> [] ->
  handleAddImage st
  = setImageInput (mkImageInput [] [] [])
      (setFormData
         (withImages
            (images (formData st) ++
               [ {| url := trim (input_url (imageInput st));
                    alt := trim (input_alt (imageInput st));
                    caption := trim (input_caption (imageInput st));
                    order := length (images (formData st)) |} ])
            (formData st))
         st).
Proof. unfold handleAddImage. intros Hu. apply truthy_true in Hu. by rewrite Hu. Qed.

Example removedThenAdded_orders :
  order <$> images (formData twoImagesDraft) = [0; 1]%nat /\
  order <$> images (formData removedThenAdded) = [1; 1]%nat.
Proof. split; reflexivity. Qed.

(** C10: removing the picture at position [i] deletes that entry and
    leaves the others as they are, fields and relative order included
    (an index that is no position of the list removes nothing); adding a
    picture appends an entry whose [order] is the length of the list at
    that moment.  So [order] values can repeat and leave gaps: removing
    the first of two pictures and adding a third gives the orders 1, 1. *)
Theorem images_remove_then_add :
  (forall (st : FormState) (i : nat),
     let imgs := images (formData st) in
     let imgs' := images (formData (handleRemoveImage (Z.of_nat i) st)) in
     imgs' = delete i imgs /\
     (forall j, (j < i)%nat -> imgs' !! j = imgs !! j) /\
     (forall j, (i <= j)%nat -> imgs' !! j = imgs !! S j)) /\
  (forall (st : FormState) (index : Z),
     (index < 0)%Z ->
     images (formData (handleRemoveImage index st)) = images (formData st)) /\
  (forall st : FormState,
     trim (input_url (imageInput st)) <> [] ->
     images (formData (handleAddImage st))
     = images (formData st) ++
         [ {| url := trim (input_url (imageInput st));
              alt := trim (input_alt (imageInput st));
              caption := trim (input_caption (imageInput st));
              order := length (images (formData st)) |} ]) /\
  (exists (st : FormState) (i : nat) (input : ImageInput),
     NoDup (order <$> images (formData st)) /\
     order <$> images (formData st) = seq 0 (length (images (formData st))) /\
     let st' := handleAddImage (setImageInput input (handleRemoveImage (Z.of_nat i) st)) in
     ~ NoDup (order <$> images (formData st')) /\
     order <$> images (formData st') <> seq 0 (length (images (formData st')))).
Proof.
  split; [|split; [|split]].
  - intros st i imgs imgs'. subst imgs imgs'.
    cbn [handleRemoveImage formData setFormData images withImages].
    rewrite filterIndex_delete. split; [done|]. split.
    + intros j Hj. by apply list_lookup_delete_lt.
    + intros j Hj. by apply list_lookup_delete_ge.
  - intros st index Hneg.
    cbn [handleRemoveImage formData setFormData images withImages].
    by apply filterIndex_negative.
  - intros st Hu. by rewrite handleAddImage_appends.
  - exists twoImagesDraft, 0%nat, (mkImageInput (js "http://x/c.png") (js "c") []).
    cbv zeta.
    change (handleAddImage
              (setImageInput (mkImageInput (js "http://x/c.png") (js "c") [])
                 (handleRemoveImage (Z.of_nat 0) twoImagesDraft)))
      with removedThenAdded.
    destruct removedThenAdded_orders as [-> ->].
    change (length (images (formData twoImagesDraft))) with 2%nat.
    change (length (images (formData removedThenAdded))) with 2%nat.
    split; [|split; [done|split]].
    + apply NoDup_cons. split; [set_solver | apply NoDup_singleton].
    + intros Hnd. apply NoDup_cons in Hnd as [Hnin _]. set_solver.
    + discriminate.
Qed.

(** ** The page: deleting goes through the confirmation *)

Lemma loadBlogs_effects fetched st :
  exists params, snd (loadBlogs fetched st) = [GetBlogs params].
Proof. unfold loadBlogs. cbn [snd]. eauto. Qed.

Lemma loadBlogs_showDeleteConfirm fetched st :
  showDeleteConfirm (fst (loadBlogs fetched st)) = showDeleteConfirm st.
Proof. by destruct fetched. Qed.

Lemma handleCreateBlog_page created fetched blogData file st :
  showDeleteConfirm (fst (fst (handleCreateBlog created fetched blogData file st)))
  = showDeleteConfirm st /\
  forall id, DeleteBlog id ∉ snd (fst (handleCreateBlog created fetched blogData file st)).
Proof.
  unfold handleCreateBlog. destruct created as [|err].
  - destruct fetched; cbn; split; [done | set_solver | done | set_solver].
  - cbn. split; [done | set_solver].
Qed.

Lemma handleUpdateBlog_page updated fetched blogData file st :
  showDeleteConfirm (fst (fst (handleUpdateBlog updated fetched blogData file st)))
  = showDeleteConfirm st /\
  forall id, DeleteBlog id ∉ snd (fst (handleUpdateBlog updated fetched blogData file st)).
Proof.
  unfold handleUpdateBlog.
  destruct (selectedBlog st) as [b|]; [|cbn; split; [done | set_solver]].
  destruct (truthy (_id b)); [|cbn; split; [done | set_solver]].
  destruct updated as [|err]; [|cbn; split; [done | set_solver]].
  destruct fetched; cbn; split; [done | set_solver | done | set_solver].
Qed.

(** The delete call is made by the confirm button only, for the
    identifier held at that moment. *)
Lemma pageStep_delete st ev id :
  DeleteBlog id ∈ snd (pageStep st ev) ->
  showDeleteConfirm st = Some id /\
  exists deleted fetched, ev = ClickConfirmDelete deleted fetched.
Proof.
  destruct ev as [|b|b| |blogData file saved fetched| |b|deleted fetched|];
    cbn [pageStep snd]; try set_solver.
  - destruct (viewMode st); try set_solver.
    destruct (formMode st).
    + intros Hin. by apply handleCreateBlog_page in Hin.
    + intros Hin. by apply handleUpdateBlog_page in Hin.
  - destruct (viewMode st), (selectedBlog st); set_solver.
  - destruct (showDeleteConfirm st) as [held|] eqn:Hheld; [|set_solver].
    intros Hin. split; [|eauto].
    unfold handleDeleteBlog in Hin. destruct deleted as [|err].
    + destruct (loadBlogs_effects fetched (setShowDeleteConfirm None st)) as [params Hp].
      destruct (loadBlogs fetched (setShowDeleteConfirm None st)) as [st' effs'].
      cbn [snd] in Hin, Hp. subst effs'. set_solver.
    + cbn [snd] in Hin. set_solver.
Qed.

(** An identifier is held after a step only if it was held before or
    the step is a delete request for it. *)
Lemma pageStep_held st ev id :
  showDeleteConfirm (fst (pageStep st ev)) = Some id ->
  showDeleteConfirm st = Some id \/
  requestsDelete id
    {| before := st; event := ev;
       effects := snd (pageStep st ev); after := fst (pageStep st ev) |}.
Proof.
  destruct ev as [|b|b| |blogData file saved fetched| |b|deleted fetched|];
    cbn [pageStep fst]; unfold requestsDelete; cbn [event before]; auto.
  - destruct (viewMode st); auto. destruct (formMode st).
    + destruct (handleCreateBlog_page saved fetched blogData file st) as [-> _]. auto.
    + destruct (handleUpdateBlog_page saved fetched blogData file st) as [-> _]. auto.
  - destruct (viewMode st) eqn:Hv; auto.
    destruct (selectedBlog st) as [b|] eqn:Hs; auto.
    cbn. intros [= <-]. right. eauto.
  - cbn. intros [= <-]. by right.
  - destruct (showDeleteConfirm st) as [held|] eqn:Hheld; [|cbn; rewrite Hheld; auto].
    unfold handleDeleteBlog. destruct deleted as [|err].
    + pose proof (loadBlogs_showDeleteConfirm fetched (setShowDeleteConfirm None st)) as Hl.
      destruct (loadBlogs fetched (setShowDeleteConfirm None st)) as [st' effs'].
      cbn [fst] in *. rewrite Hl. discriminate.
    + cbn. rewrite Hheld. auto.
  - discriminate.
Qed.

Lemma pageStep_pair st ev : pageStep st ev = (fst (pageStep st ev), snd (pageStep st ev)).
Proof. by destruct (pageStep st ev). Qed.

Lemma runPage_cons st ev rest :
  runPage st (ev :: rest)
  = {| before := st; event := ev;
       effects := snd (pageStep st ev); after := fst (pageStep st ev) |}
    :: runPage (fst (pageStep st ev)) rest.
Proof. simpl. by destruct (pageStep st ev). Qed.

(** A step of a run starts in the state the events before it lead to. *)
Lemma runPage_split evs : forall st pre s post,
  runPage st evs = pre ++ s :: post ->
  exists evs1 evs2,
    evs = evs1 ++ event s :: evs2 /\
    pre = runPage st evs1 /\
    before s = pageAfter st evs1 /\
    effects s = snd (pageStep (before s) (event s)).
Proof.
  induction evs as [|ev rest IH]; intros st pre s post Hrun.
  - by destruct pre.
  - rewrite runPage_cons in Hrun. destruct pre as [|p pre'].
    + injection Hrun as <- _. by exists [], rest.
    + injection Hrun as <- Hrest.
      destruct (IH _ _ _ _ Hrest) as (evs1 & evs2 & -> & -> & Hb & He).
      exists (ev :: evs1), evs2. rewrite runPage_cons. done.
Qed.

(** Whatever is held at some point of a run was held at its start or
    requested in between. *)
Lemma held_was_requested evs : forall st id,
  showDeleteConfirm (pageAfter st evs) = Some id ->
  showDeleteConfirm st = Some id \/
  exists r, r ∈ runPage st evs /\ requestsDelete id r.
Proof.
  induction evs as [|ev rest IH]; intros st id Hheld; [by left|].
  rewrite runPage_cons. cbn [pageAfter] in Hheld.
  destruct (IH _ _ Hheld) as [Hnow|(r & Hr & Hreq)].
  - destruct (pageStep_held st ev id Hnow) as [Hst|Hreq]; [by left|].
    right. eexists. split; [apply list_elem_of_here | exact Hreq].
  - right. exists r. split; [by apply list_elem_of_further | done].
Qed.

Lemma runPage_after evs : forall st r,
  r ∈ runPage st evs -> after r = fst (pageStep (before r) (event r)).
Proof.
  induction evs as [|ev rest IH]; intros st r Hr.
  - by apply elem_of_nil in Hr.
  - rewrite runPage_cons in Hr. apply elem_of_cons in Hr as [->|Hr]; [done|].
    by apply IH in Hr.
Qed.

Lemma requestsDelete_holds id r :
  requestsDelete id r ->
  showDeleteConfirm (fst (pageStep (before r) (event r))) = Some id.
Proof.
  unfold requestsDelete. destruct (event r); try done.
  - intros (Hv & b & Hs & <-). cbn [pageStep]. by rewrite Hv, Hs.
  - by intros <-.
Qed.

(** C7: in every run of the page from its initial state, a step that
    calls [blogService.deleteBlog] for an identifier is a press of the
    confirm button, made while that identifier is held in
    [showDeleteConfirm]; and an earlier step of the run is a delete request
    (the delete button of a row, or of the detail view) that put this
    identifier there. *)
Theorem delete_needs_confirmation evs pre s post id :
  runPage initialPageState evs = pre ++ s :: post ->
  DeleteBlog id ∈ effects s ->
  showDeleteConfirm (before s) = Some id /\
  (exists deleted fetched, event s = ClickConfirmDelete deleted fetched) /\
  exists r, r ∈ pre /\ requestsDelete id r /\ showDeleteConfirm (after r) = Some id.
Proof.
  intros Hrun Hdel.
  destruct (runPage_split _ _ _ _ _ Hrun) as (evs1 & evs2 & -> & -> & Hb & He).
  rewrite He in Hdel. apply pageStep_delete in Hdel as [Hheld Hev].
  split; [done|]. split; [done|].
  rewrite Hb in Hheld.
  destruct (held_was_requested _ _ _ Hheld) as [Hinit|(r & Hr & Hreq)]; [done|].
  exists r. split; [done|]. split; [done|].
  rewrite (runPage_after _ _ _ Hr). by apply requestsDelete_holds.
Qed.

Lemma deleteRunSteps_split :
  exists s, deleteRunSteps !! 3%nat = Some s /\
            deleteRunSteps = take 3 deleteRunSteps ++ s :: drop 4 deleteRunSteps /\
            DeleteBlog (js "b1") ∈ effects s.
Proof.
  eexists. split; [reflexivity|]. split; [reflexivity|].
  apply list_elem_of_here.
Defined.

Lemma delete_needs_confirmation_witness :
  exists s,
    deleteRunSteps !! 3%nat = Some s /\
    DeleteBlog (js "b1") ∈ effects s /\
    showDeleteConfirm (before s) = Some (js "b1") /\
    (exists deleted fetched, event s = ClickConfirmDelete deleted fetched) /\
    exists r, r ∈ take 3 deleteRunSteps /\ requestsDelete (js "b1") r /\
              showDeleteConfirm (after r) = Some (js "b1").
Proof.
  destruct deleteRunSteps_split as (s & Hs & Hsplit & Hdel).
  exists s. split; [exact Hs|]. split; [exact Hdel|].
  exact (delete_needs_confirmation deleteRun (take 3 deleteRunSteps) s
           (drop 4 deleteRunSteps) (js "b1") Hsplit Hdel).
Defined.

(** Without a request nothing is deleted: pressing confirm in a page that
    holds no identifier calls nothing. *)
Example confirm_without_request :
  snd (pageStep initialPageState (ClickConfirmDelete Fulfilled (FetchedPage [] 1))) = [].
Proof. reflexivity. Qed.

(** ** The request interceptor *)

Lemma lowerCaseGet_set_same h name name' v :
  sameHeaderName name name' = true ->
  lowerCaseGet (lowerCaseSet name v h) name' = Some v.
Proof.
  unfold sameHeaderName, lowerCaseGet, lowerCaseSet. intros Hs.
  apply String.eqb_eq in Hs. rewrite <- Hs. apply lookup_insert_eq.
Qed.

Lemma lowerCaseGet_set_other h name name' v :
  sameHeaderName name name' = false ->
  lowerCaseGet (lowerCaseSet name v h) name' = lowerCaseGet h name'.
Proof.
  unfold sameHeaderName, lowerCaseGet, lowerCaseSet. intros Hs.
  apply String.eqb_neq in Hs. by apply lookup_insert_ne.
Qed.

Lemma lowerCase_laws : HeaderLaws LowerCaseHeaders.
Proof.
  split.
  - apply lowerCaseGet_set_same.
  - apply lowerCaseGet_set_other.
Qed.

Example axiosInterceptor_axiosRequest :
  headers (axiosInterceptor keepValue loggedIn axiosRequest)
  = Some (AxiosHeaders
            ({[ "content-type" := HeaderText (js "application/json");
                "authorization" := HeaderText (js "Bearer abc123") ]}
             : gmap string HeaderValue)).
Proof. vm_compute. reflexivity. Qed.

(** C8, as stated, fails: with a token in storage and a header object
    whose Authorization header is switched off, [set] writes nothing; the
    request comes back as it was, without the bearer token. *)
Lemma requestInterceptor_switched_off_counterexample :
  hasWindow loggedIn = true /\
  localStorage loggedIn !! "admin_token" = Some (js "abc123") /\
  axiosInterceptor keepValue loggedIn authorizationOffRequest
  = authorizationOffRequest /\
  @readHeader AxiosHeaderMap (axiosHeaderObject keepValue)
    (axiosInterceptor keepValue loggedIn authorizationOffRequest) "Authorization"
  <> Some (js "Bearer abc123").
Proof. repeat split; try (vm_compute; reflexivity). vm_compute. discriminate. Qed.

(** C8 (amended): a token is present when [window] exists and
    [localStorage] holds a non-empty string under [admin_token].  With a
    token present the interceptor changes nothing but the headers.  In a
    plain object (which a missing container becomes) it sets the property
    Authorization to "Bearer " followed by the token and leaves every other
    property as it is.  On a header object it calls [set]: the
    Authorization header becomes "Bearer " followed by the token, as the
    object normalises it, unless it was switched off, in which case it
    stays off; every other header is as before.  Without a token the
    request comes back as it is. *)
Theorem requestInterceptor_bearer (normalizeValue : jsstring -> jsstring)
    (env : Ambient) (config : @RequestConfig AxiosHeaderMap) :
  let config' := axiosInterceptor normalizeValue env config in
  (forall token : jsstring,
     hasWindow env = true ->
     localStorage env !! "admin_token" = Some token ->
     token <> [] ->
     config' = withHeaders (headers config') config /\
     match headers config with
     | Some (AxiosHeaders h) =>
         exists h' : gmap string HeaderValue,
           headers config' = Some (AxiosHeaders h') /\
           h' !! "authorization"
           = match (h : gmap string HeaderValue) !! "authorization" with
             | Some HeaderOff => Some HeaderOff
             | _ => Some (HeaderText (normalizeValue (js "Bearer " ++ token)))
             end /\
           forall key, key <> "authorization" ->
                       h' !! key = (h : gmap string HeaderValue) !! key
     | Some (PlainObject props) =>
         exists props' : gmap string jsstring,
           headers config' = Some (PlainObject props') /\
           props' !! "Authorization" = Some (js "Bearer " ++ token) /\
           forall key, key <> "Authorization" -> props' !! key = props !! key
     | None =>
         exists props' : gmap string jsstring,
           headers config' = Some (PlainObject props') /\
           props' !! "Authorization" = Some (js "Bearer " ++ token) /\
           forall key, key <> "Authorization" -> props' !! key = None
     end) /\
  (hasWindow env = false \/
   localStorage env !! "admin_token" = None \/
   localStorage env !! "admin_token" = Some [] ->
   config' = config).
Proof.
  intros config'. subst config'.
  unfold axiosInterceptor, requestInterceptor, getItem. split.
  - intros token Hw Ht Hne. rewrite Hw, Ht.
    apply truthy_true in Hne. rewrite Hne.
    destruct config as [b u m hs d]. cbn [headers].
    destruct hs as [[props|h]|];
      cbn [headers withHeaders baseURL requestUrl method data headerSet
             axiosHeaderObject]; (split; [done|]).
    + eexists. split; [done|]. split; [apply lookup_insert_eq|].
      intros key Hk. by apply lookup_insert_ne.
    + eexists. split; [done|]. unfold axiosSet.
      change (lowerName "Authorization") with "authorization"%string.
      destruct ((h : gmap string HeaderValue) !! "authorization") as [[v|]|] eqn:Hold.
      * split; [apply lookup_insert_eq|]. intros key Hk. by apply lookup_insert_ne.
      * split; [done|]. done.
      * split; [apply lookup_insert_eq|]. intros key Hk. by apply lookup_insert_ne.
    + eexists. split; [done|]. split; [apply lookup_insert_eq|].
      intros key Hk. rewrite lookup_insert_ne by done. apply lookup_empty.
  - intros [Hw|[Ht|Ht]].
    + by rewrite Hw.
    + rewrite Ht. by destruct (hasWindow env).
    + rewrite Ht. by destruct (hasWindow env).
Qed.

Lemma requestInterceptor_bearer_witness :
  exists h' : gmap string HeaderValue,
    headers (axiosInterceptor keepValue loggedIn axiosRequest)
    = Some (AxiosHeaders h') /\
    h' !! "authorization" = Some (HeaderText (js "Bearer abc123")) /\
    h' !! "content-type" = Some (HeaderText (js "application/json")).
Proof.
  destruct (proj1 (requestInterceptor_bearer keepValue loggedIn axiosRequest)
              (js "abc123") eq_refl eq_refl ltac:(discriminate))
    as (_ & h' & Hh & Hauth & Hother).
  exists h'. split; [exact Hh|]. split; [exact Hauth|].
  rewrite (Hother "content-type" ltac:(discriminate)). reflexivity.
Defined.

(** A plain header object gets the property; a property spelled in another
    case is another property and stays. *)
Example axiosInterceptor_plainRequest :
  headers (axiosInterceptor keepValue loggedIn plainRequest)
  = Some (PlainObject
            {[ "Content-Type" := js "application/json";
               "Authorization" := js "Bearer abc123" ]}).
Proof. vm_compute. reflexivity. Qed.

(** The request of the example gets its header through [set]; its
    Content-Type stays. *)
Example requestInterceptor_jsonRequest :
  readHeader (requestInterceptor loggedIn jsonRequest) "Authorization"
  = Some (js "Bearer abc123") /\
  readHeader (requestInterceptor loggedIn jsonRequest) "Content-Type"
  = Some (js "application/json").
Proof. split; vm_compute; reflexivity. Qed.

(** An empty string under [admin_token] counts as no token. *)
Example requestInterceptor_empty_token (config : @RequestConfig LowerCaseHeaders) :
  requestInterceptor
    {| hasWindow := true; localStorage := {[ "admin_token" := [] ]} |} config
  = config.
Proof. reflexivity. Qed.

(** * Further properties of the code *)

(** ** More on [generateSlug] *)

Lemma trimStart_nil_iff s :
  trimStart s = [] <-> Forall (fun c => isWhiteSpace c = true) s.
Proof.
  induction s as [|c r IH]; simpl; [by split|].
  destruct (isWhiteSpace c) eqn:Hc.
  - rewrite IH. split; [by constructor | by inversion 1].
  - split; [done|]. inversion 1; congruence.
Qed.

Lemma trimStart_stable s :
  Forall (fun c => isWhiteSpace c = false) s -> trimStart s = s.
Proof. destruct 1 as [|c r Hc _]; [done|]. by apply trimStart_nonws. Qed.

Lemma trim_stable s :
  Forall (fun c => isWhiteSpace c = false) s -> trim s = s.
Proof.
  intros Hs. unfold trim, trimEnd. rewrite (trimStart_stable s Hs).
  rewrite trimStart_stable; [apply rev_involutive|].
  apply List.Forall_forall. intros c Hc. apply List.in_rev in Hc.
  by apply (proj1 (List.Forall_forall _ _) Hs).
Qed.

Lemma trim_nil_iff s :
  trim s = [] <-> Forall (fun c => isWhiteSpace c = true) s.
Proof.
  split.
  - intros Ht. apply trimStart_nil_iff.
    destruct (trimStart s) as [|c r] eqn:Hs; [done|].
    assert (Hc : isWhiteSpace c = false) by (apply (trimStart_head s); by rewrite Hs).
    unfold trim in Ht. rewrite Hs, trimEnd_cons_nonws in Ht by done. done.
  - intros Hw. unfold trim. by rewrite (proj2 (trimStart_nil_iff s) Hw).
Qed.

Lemma replaceRunsFrom_stable cls s : forall b,
  Forall (fun c => cls c = false) s -> replaceRunsFrom cls b s = s.
Proof.
  induction s as [|c r IH]; intros b Hs; [done|].
  inversion Hs as [|? ? Hc Hr]; subst. simpl. rewrite Hc. by rewrite IH.
Qed.

Lemma collapse_stable s : forall b,
  noDoubleHyphen s = true ->
  (b = true -> leadingHyphen s = false) ->
  replaceRunsFrom isHyphen b s = s.
Proof.
  induction s as [|c r IH]; intros b Hn Hb; [done|].
  assert (Hr : noDoubleHyphen r = true /\
               (isHyphen c = true -> leadingHyphen r = false)).
  { destruct r as [|d t]; [done|].
    change (negb (isHyphen c && isHyphen d) && noDoubleHyphen (d :: t) = true) in Hn.
    apply andb_true_iff in Hn as [Hcd Hn]. split; [done|].
    intros Hc. rewrite Hc in Hcd. unfold leadingHyphen. simpl.
    by destruct (isHyphen d). }
  destruct Hr as [Hnr Hlr]. simpl replaceRunsFrom.
  destruct (isHyphen c) eqn:Hc.
  - destruct b.
    + specialize (Hb eq_refl). unfold leadingHyphen in Hb. simpl in Hb. congruence.
    + rewrite (hyphen_is_HYPHEN c Hc). f_equal. apply IH; auto.
  - f_equal. apply IH; [done | discriminate].
Qed.

Lemma replaceRunsFrom_length cls s : forall b,
  (length (replaceRunsFrom cls b s) <= length s)%nat.
Proof.
  induction s as [|c r IH]; intros b; [simpl; lia|].
  pose proof (IH true). pose proof (IH false).
  simpl. destruct (cls c); [destruct b|]; simpl; lia.
Qed.

Lemma trim_length s : (length (trim s) <= length s)%nat.
Proof.
  unfold trim.
  destruct (trimEnd_prefix (trimStart s)) as [q Hq].
  destruct (trimStart_suffix s) as [p Hp].
  rewrite Hp at 2. rewrite Hq at 2. rewrite !length_app. lia.
Qed.

(** X1: a slug is a fixed point of [generateSlug], for every case mapping
    that leaves strings over [[a-z0-9-]] alone: slugging a slug changes
    nothing. *)
Theorem generateSlug_idempotent (toLowerCase : jsstring -> jsstring) (T : jsstring) :
  (forall s, Forall (fun c => isSlugChar c = true) s -> toLowerCase s = s) ->
  generateSlug toLowerCase (generateSlug toLowerCase T) = generateSlug toLowerCase T.
Proof.
  intros Hfix.
  pose proof (generateSlug_slugChars toLowerCase T) as Hc.
  pose proof (proj1 (replaceRunsFrom_hyphen_shape
                       (replaceRuns isWhiteSpace (slugCore toLowerCase T)) false)) as Hn.
  change (noDoubleHyphen (generateSlug toLowerCase T) = true) in Hn.
  set (s := generateSlug toLowerCase T) in *.
  unfold generateSlug at 1. rewrite (Hfix s Hc).
  assert (Hkeep : removeDisallowed s = s).
  { unfold removeDisallowed. clear -Hc. induction Hc as [|c r Hc _ IH]; [done|].
    simpl. by rewrite (slugChar_kept c Hc), IH. }
  assert (Hnows : Forall (fun c => isWhiteSpace c = false) s).
  { eapply Forall_impl; [exact Hc|]. intros c Hs.
    destruct (isWhiteSpace c) eqn:Hw; [|done].
    apply whitespace_not_slugChar in Hw. congruence. }
  rewrite Hkeep, (trim_stable s Hnows).
  unfold replaceRuns. rewrite (replaceRunsFrom_stable isWhiteSpace s false Hnows).
  apply collapse_stable; [done | discriminate].
Qed.

Lemma toLowerCaseLatin_slugChars s :
  Forall (fun c => isSlugChar c = true) s -> toLowerCaseLatin s = s.
Proof. apply slugChars_lowercase. Qed.

Lemma generateSlug_idempotent_witness :
  generateSlug toLowerCaseLatin (generateSlug toLowerCaseLatin (js "  Foo --  bar - "))
  = generateSlug toLowerCaseLatin (js "  Foo --  bar - ").
Proof.
  exact (generateSlug_idempotent toLowerCaseLatin (js "  Foo --  bar - ")
           toLowerCaseLatin_slugChars).
Defined.

(** X2: the slug is empty exactly when the lowercased title has no
    character of [[a-z0-9-]]: a title of punctuation, blanks or letters of
    other alphabets gives the empty slug. *)
Theorem generateSlug_empty_iff (toLowerCase : jsstring -> jsstring) (T : jsstring) :
  generateSlug toLowerCase T = [] <->
  Forall (fun c => isSlugChar c = false) (toLowerCase T).
Proof.
  assert (Hcore : generateSlug toLowerCase T = [] <-> slugCore toLowerCase T = []).
  { unfold generateSlug. fold (slugCore toLowerCase T).
    destruct (slugCore toLowerCase T) as [|c r]; [done|].
    split; [|done]. unfold replaceRuns. simpl.
    destruct (isWhiteSpace c); simpl; [done|]. by destruct (isHyphen c). }
  rewrite Hcore. unfold slugCore. rewrite trim_nil_iff.
  unfold removeDisallowed. rewrite !List.Forall_forall. split.
  - intros Hw c Hin. destruct (isSlugChar c) eqn:Hs; [|done].
    assert (Hk : isKept c = true) by by apply slugChar_kept.
    specialize (Hw c (proj2 (List.filter_In _ _ _) (conj Hin Hk))).
    apply whitespace_not_slugChar in Hw. congruence.
  - intros Hn c Hin. apply List.filter_In in Hin as [Hin Hk].
    specialize (Hn c Hin).
    destruct (isWhiteSpace c) eqn:Hw; [done|].
    rewrite (kept_not_whitespace_slugChar c Hk Hw) in Hn. done.
Qed.

(** X3: the slug is never longer than the lowercased title. *)
Theorem generateSlug_length (toLowerCase : jsstring -> jsstring) (T : jsstring) :
  (length (generateSlug toLowerCase T) <= length (toLowerCase T))%nat.
Proof.
  unfold generateSlug, replaceRuns.
  pose proof (replaceRunsFrom_length isHyphen
                (replaceRunsFrom isWhiteSpace false
                   (trim (removeDisallowed (toLowerCase T)))) false) as H1.
  pose proof (replaceRunsFrom_length isWhiteSpace
                (trim (removeDisallowed (toLowerCase T))) false) as H2.
  pose proof (trim_length (removeDisallowed (toLowerCase T))) as H3.
  pose proof (List.filter_length_le isKept (toLowerCase T)) as H4.
  unfold removeDisallowed in *. lia.
Qed.

(** ** More on validation and submission *)

Lemma noImage_false_iff blog st :
  negb (bool_decide (is_Some (featuredImageFile st)))
  && negb (truthy (trim (featuredImage (formData st))))
  && negb match blog with
          | Some b => truthy (orEmpty (blog_featuredImage b))
          | None => false
          end = false <->
  (is_Some (featuredImageFile st) \/
   trim (featuredImage (formData st)) <> [] \/
   exists b, blog = Some b /\ orEmpty (blog_featuredImage b) <> []).
Proof.
  rewrite <- truthy_true.
  destruct (featuredImageFile st) as [f|]; [split; [eauto | done]|].
  rewrite bool_decide_eq_false_2 by (by intros [? ?]).
  destruct (truthy (trim (featuredImage (formData st)))); [split; [eauto | done]|].
  cbn [negb andb].
  destruct blog as [b|].
  - destruct (truthy (orEmpty (blog_featuredImage b))) eqn:Hb; cbn [negb].
    + split; [|done]. intros _. right. right. exists b. split; [done|].
      by apply truthy_true.
    + split; [done|].
      intros [[? [=]]|[?|(b' & [= <-] & Hne)]]; [done|].
      apply truthy_true in Hne. congruence.
  - split; [done|]. intros [[? [=]]|[?|(b' & [=] & _)]]. done.
Qed.

Lemma newErrors_empty_iff blog st : newErrors blog st = ∅ <-> submittable blog st.
Proof.
  unfold newErrors, submittable.
  rewrite <- (noImage_false_iff blog st), <- !truthy_true.
  destruct (truthy (trim (title (formData st))));
    destruct (truthy (trim (excerpt (formData st))));
    destruct (truthy (trim (content (formData st))));
    destruct (truthy (trim (slug (formData st))));
    destruct (negb (bool_decide (is_Some (featuredImageFile st)))
              && negb (truthy (trim (featuredImage (formData st))))
              && negb match blog with
                      | Some b => truthy (orEmpty (blog_featuredImage b))
                      | None => false
                      end);
    cbn [negb];
    (split; [intros Hi; first [by apply insert_non_empty in Hi | done]
            | intros Hs; first [done | exfalso; intuition discriminate]]).
Qed.

Lemma newErrors_keys blog st : dom (newErrors blog st) ⊆ allErrorKeys.
Proof.
  unfold newErrors, allErrorKeys.
  repeat match goal with
    | |- context [if ?b then _ else _] => destruct b
    end;
    rewrite ?dom_insert_L, ?dom_empty_L; set_solver.
Qed.

Lemma validateForm_ok_iff blog st :
  fst (validateForm blog st) = true <-> submittable blog st.
Proof.
  unfold validateForm. cbn [fst].
  rewrite Nat.eqb_eq, map_size_empty_iff. apply newErrors_empty_iff.
Qed.

(** X4: [validateForm] answers true exactly for a draft whose title,
    excerpt, content and slug are not blank and that has a picture (staged
    file, non-blank URL, or a non-empty image on the edited entity); the
    mapping it stores is then empty, and otherwise it is non-empty with keys
    among title, excerpt, content, slug, featuredImage.  Nothing but the
    error mapping is changed. *)
Theorem validateForm_true_iff (blog : option Blog) (st : FormState) :
  (fst (validateForm blog st) = true <-> submittable blog st) /\
  (fst (validateForm blog st) = true <-> errors (snd (validateForm blog st)) = ∅) /\
  dom (errors (snd (validateForm blog st))) ⊆ allErrorKeys /\
  snd (validateForm blog st) = setErrors (errors (snd (validateForm blog st))) st.
Proof.
  unfold validateForm. cbn [fst snd errors setErrors].
  assert (Hsize : Nat.eqb (size (newErrors blog st)) 0 = true <-> newErrors blog st = ∅).
  { rewrite Nat.eqb_eq. apply map_size_empty_iff. }
  split; [by rewrite Hsize, newErrors_empty_iff|].
  split; [done|]. split; [apply newErrors_keys | done].
Qed.

(** X5: whatever the save callback is called with has passed validation:
    the call is made with no save in progress, its payload has a title, an
    excerpt, a content and a slug that are not blank, and either comes with
    a file or carries a non-blank image URL, or else the edited entity has
    an image. *)
Theorem onSave_only_validated blog isLoading onSave st d f :
  (d, f) ∈ saveCalls (snd (fst (handleSubmit blog isLoading onSave st))) ->
  isLoading = false /\
  trim (title d) <> [] /\
  trim (excerpt d) <> [] /\
  trim (content d) <> [] /\
  trim (slug d) <> [] /\
  (is_Some f \/
   trim (featuredImage d) <> [] \/
   exists b, blog = Some b /\ orEmpty (blog_featuredImage b) <> []).
Proof.
  destruct isLoading; [rewrite handleSubmit_loading; cbn; set_solver|].
  destruct (fst (validateForm blog st)) eqn:Hv.
  - rewrite handleSubmit_valid by done.
    assert (Hcalls :
              saveCalls
                ([PreventDefault; OnSave (submitData st) (featuredImageFile st)] ++
                 fst (tryCatch (onSave (submitData st) (featuredImageFile st))
                        (fun error =>
                           [ConsoleError error;
                            Alert (js "Error saving blog: "
                                     ++ messageOr error (js "Unknown error"))])))
              = [(submitData st, featuredImageFile st)]).
    { by destruct (onSave (submitData st) (featuredImageFile st)). }
    cbn [fst snd]. rewrite Hcalls. intros Hin.
    apply list_elem_of_singleton in Hin. injection Hin as -> ->.
    apply validateForm_ok_iff in Hv as (Ht & He & Hc & Hs & Hi).
    split; [done|]. unfold submitData.
    repeat split; try done.
    destruct (featuredImageFile st) as [file|]; [left; eauto|].
    destruct Hi as [[? [=]]|Hi]. by right.
  - rewrite handleSubmit_invalid by done. cbn. set_solver.
Qed.

Lemma onSave_only_validated_witness :
  false = false /\
  trim (title (submitData helloWorldDraft)) <> [] /\
  trim (excerpt (submitData helloWorldDraft)) <> [] /\
  trim (content (submitData helloWorldDraft)) <> [] /\
  trim (slug (submitData helloWorldDraft)) <> [] /\
  (is_Some (None : option File) \/
   trim (featuredImage (submitData helloWorldDraft)) <> [] \/
   exists b, (None : option Blog) = Some b /\ orEmpty (blog_featuredImage b) <> []).
Proof.
  apply (onSave_only_validated None false savingSucceeds helloWorldDraft
           (submitData helloWorldDraft) None).
  apply list_elem_of_here.
Defined.

(** ** More on [handleInputChange] *)

Lemma handleInputChange_errors_eq toLowerCase blog e st :
  errors (handleInputChange toLowerCase blog e st)
  = if hasError (errors st) (eventName e)
    then <[eventName e := ""%string]> (errors st)
    else errors st.
Proof.
  unfold handleInputChange.
  destruct (hasError (errors st) (eventName e)); destruct e as [n c|n v];
    try destruct n; cbn -[generateSlug trim];
    try destruct (negb (bool_decide (is_Some blog))
                  || negb (truthy (trim (slug (formData st)))));
    reflexivity.
Qed.

(** X6: touching an input blanks the message stored for it and leaves its
    key in the mapping: the keys of [errors] are the same before and after
    every change, so the mapping a failed validation left never becomes
    empty by editing; the messages of the other fields stay as they are. *)
Theorem handleInputChange_errors toLowerCase blog e st :
  let st' := handleInputChange toLowerCase blog e st in
  dom (errors st') = dom (errors st) /\
  size (errors st') = size (errors st) /\
  hasError (errors st') (eventName e) = false /\
  (forall k, k <> eventName e -> errors st' !! k = errors st !! k).
Proof.
  intros st'. subst st'. rewrite handleInputChange_errors_eq.
  destruct (hasError (errors st) (eventName e)) eqn:Herr.
  - assert (Hin : eventName e ∈ dom (errors st)).
    { apply elem_of_dom. unfold hasError in Herr.
      destruct (errors st !! eventName e); [eauto | done]. }
    assert (Hdom : dom (<[eventName e := ""%string]> (errors st)) = dom (errors st)).
    { rewrite dom_insert_L. set_solver. }
    split; [done|]. split; [by rewrite <- !size_dom, Hdom|].
    split.
    + unfold hasError. by rewrite lookup_insert_eq.
    + intros k Hk. by apply lookup_insert_ne.
  - done.
Qed.

(** ** More on tags *)

Lemma filter_out_sublist (t : jsstring) (l : list jsstring) :
  List.filter (fun tag => negb (bool_decide (tag = t))) l `sublist_of` l.
Proof.
  induction l as [|x r IH]; simpl; [constructor|].
  destruct (negb (bool_decide (x = t))); by constructor.
Qed.

Lemma filter_out_absent (t : jsstring) (l : list jsstring) :
  t ∉ l -> List.filter (fun tag => negb (bool_decide (tag = t))) l = l.
Proof.
  induction l as [|x r IH]; intros Hnin; [done|].
  apply not_elem_of_cons in Hnin as [Hne Hnin]. simpl.
  rewrite bool_decide_eq_false_2 by done. simpl. by rewrite IH.
Qed.

Lemma filter_out_elem (t x : jsstring) (l : list jsstring) :
  x ∈ List.filter (fun tag => negb (bool_decide (tag = t))) l <-> x ∈ l /\ x <> t.
Proof.
  rewrite !list_elem_of_In, List.filter_In, negb_true_iff, bool_decide_eq_false.
  done.
Qed.

(** X7: [handleRemoveTag] removes every occurrence of the tag and nothing
    else: the tags left are those different from it, in their old order;
    removing a tag that is not in the list leaves the list as it is; and
    only the tags of the draft change. *)
Theorem handleRemoveTag_spec (tagToRemove : jsstring) (st : FormState) :
  let st' := handleRemoveTag tagToRemove st in
  (forall x, x ∈ tags (formData st') <-> x ∈ tags (formData st) /\ x <> tagToRemove) /\
  tags (formData st') `sublist_of` tags (formData st) /\
  (tagToRemove ∉ tags (formData st) -> tags (formData st') = tags (formData st)) /\
  st' = setFormData (withTags (tags (formData st')) (formData st)) st.
Proof.
  cbn [handleRemoveTag formData setFormData tags withTags].
  split; [intros x; apply filter_out_elem|].
  split; [apply filter_out_sublist|].
  split; [apply filter_out_absent | done].
Qed.

(** X8: removing a tag right after [handleAddTag] appended it gives back
    the tag list from before the addition. *)
Theorem handleAddTag_then_remove (toLowerCase : jsstring -> jsstring) (st : FormState) :
  trim (tagInput st) <> [] ->
  toLowerCase (trim (tagInput st)) ∉ tags (formData st) ->
  tags (formData (handleRemoveTag (toLowerCase (trim (tagInput st)))
                    (handleAddTag toLowerCase st)))
  = tags (formData st).
Proof.
  intros Hb Hnin. rewrite handleAddTag_appends by done.
  cbn [handleRemoveTag formData setFormData setTagInput tags withTags].
  rewrite List.filter_app, filter_out_absent by done. simpl.
  rewrite bool_decide_eq_true_2 by done. simpl. apply app_nil_r.
Qed.

Lemma handleAddTag_then_remove_witness :
  tags (formData (handleRemoveTag (toLowerCaseLatin (trim (js " Rust ")))
                    (handleAddTag toLowerCaseLatin
                       (setTagInput (js " Rust ") initialFormState))))
  = tags (formData (setTagInput (js " Rust ") initialFormState)).
Proof.
  apply (handleAddTag_then_remove toLowerCaseLatin
           (setTagInput (js " Rust ") initialFormState)).
  - vm_compute. discriminate.
  - apply not_elem_of_nil.
Defined.

Lemma lowerCodeUnit_fixed d :
  ~ (65 <= d <= 90) -> ~ (192 <= d <= 222 /\ d <> 215) -> lowerCodeUnit d = d.
Proof.
  intros Hu Hl. unfold lowerCodeUnit, isUpperAlpha.
  destruct (N.leb_spec 65 d), (N.leb_spec d 90), (N.leb_spec 192 d),
    (N.leb_spec d 222), (N.eqb_spec d 215); simpl; try reflexivity; lia.
Qed.

Lemma lowerCodeUnit_range c :
  ~ (65 <= lowerCodeUnit c <= 90) /\
  ~ (192 <= lowerCodeUnit c <= 222 /\ lowerCodeUnit c <> 215).
Proof.
  unfold lowerCodeUnit, isUpperAlpha.
  destruct (N.leb_spec 65 c), (N.leb_spec c 90), (N.leb_spec 192 c),
    (N.leb_spec c 222), (N.eqb_spec c 215); simpl; lia.
Qed.

Lemma lowerCodeUnit_idempotent c : lowerCodeUnit (lowerCodeUnit c) = lowerCodeUnit c.
Proof. destruct (lowerCodeUnit_range c). by apply lowerCodeUnit_fixed. Qed.

Lemma toLowerCaseLatin_idempotent s :
  toLowerCaseLatin (toLowerCaseLatin s) = toLowerCaseLatin s.
Proof.
  unfold toLowerCaseLatin. rewrite List.map_map.
  apply List.map_ext. intros c. apply lowerCodeUnit_idempotent.
Qed.

(** X9: [handleAddTag] keeps a lowercase tag list lowercase, for every
    case mapping that maps its own results to themselves: a tag in another
    case can only come from outside (the entity loaded by the effect). *)
Theorem handleAddTag_lowercase_invariant (toLowerCase : jsstring -> jsstring)
    (st : FormState) :
  (forall s, toLowerCase (toLowerCase s) = toLowerCase s) ->
  Forall (fun tag => toLowerCase tag = tag) (tags (formData st)) ->
  Forall (fun tag => toLowerCase tag = tag)
    (tags (formData (handleAddTag toLowerCase st))) /\
  (NoDup (tags (formData st)) ->
   NoDup (tags (formData (handleAddTag toLowerCase st)))).
Proof.
  intros Hidem Hlow. unfold handleAddTag.
  destruct (truthy (trim (tagInput st))) eqn:Ht; [|done].
  destruct (includes (tags (formData st)) (toLowerCase (trim (tagInput st)))) eqn:Hi;
    [done|].
  cbn [andb negb formData setTagInput setFormData tags withTags].
  apply includes_false in Hi. split.
  - apply Forall_app. split; [done|]. constructor; [apply Hidem | constructor].
  - intros Hnd. apply NoDup_app. split; [done|]. split.
    + intros x Hx Hx'. apply list_elem_of_singleton in Hx'. by subst.
    + apply NoDup_singleton.
Qed.

Lemma handleAddTag_lowercase_invariant_witness :
  Forall (fun tag => toLowerCaseLatin tag = tag)
    (tags (formData (handleAddTag toLowerCaseLatin
                       (setTagInput (js " Rust ") initialFormState)))) /\
  (NoDup (tags (formData (setTagInput (js " Rust ") initialFormState))) ->
   NoDup (tags (formData (handleAddTag toLowerCaseLatin
                            (setTagInput (js " Rust ") initialFormState))))).
Proof.
  apply (handleAddTag_lowercase_invariant toLowerCaseLatin
           (setTagInput (js " Rust ") initialFormState)).
  - exact toLowerCaseLatin_idempotent.
  - constructor.
Defined.

(** ** More on images *)

Lemma filterIndexFrom_far {A} (l : list A) : forall k index,
  (Z.of_nat (k + length l) <= index)%Z -> filterIndexFrom k index l = l.
Proof.
  induction l as [|x r IH]; intros k index Hge; [done|].
  simpl in *. destruct (Z.eqb_spec (Z.of_nat k) index) as [He|_]; [lia|].
  f_equal. apply IH. lia.
Qed.

(** X10: [handleRemoveImage] with an index that is a position of the list
    makes the list one shorter; with any other index (negative, or the
    length and beyond) it leaves the list as it is.  The kept pictures
    stay in their order. *)
Theorem handleRemoveImage_bounds (index : Z) (st : FormState) :
  let imgs := images (formData st) in
  let imgs' := images (formData (handleRemoveImage index st)) in
  ((0 <= index < Z.of_nat (length imgs))%Z -> length imgs' = (length imgs - 1)%nat) /\
  ((index < 0 \/ Z.of_nat (length imgs) <= index)%Z -> imgs' = imgs) /\
  imgs' `sublist_of` imgs.
Proof.
  cbn [handleRemoveImage formData setFormData images withImages].
  assert (Hcase : (index < 0)%Z \/ exists i, index = Z.of_nat i).
  { destruct (Z.ltb_spec index 0) as [Hneg|Hpos]; [by left|].
    right. exists (Z.to_nat index). lia. }
  split; [|split].
  - intros [H0 Hlt]. destruct Hcase as [?|[i ->]]; [lia|].
    rewrite filterIndex_delete. apply length_delete.
    apply lookup_lt_is_Some. lia.
  - intros [Hneg|Hge]; [by apply filterIndex_negative|].
    apply filterIndexFrom_far. simpl. lia.
  - destruct Hcase as [Hneg|[i ->]].
    + by rewrite filterIndex_negative.
    + rewrite filterIndex_delete. apply sublist_delete.
Qed.

(** X11: as long as pictures are only added, the [order] of each is its
    position: [handleAddImage] takes a list with orders 0, 1, ..., n-1 to
    a list with orders 0, 1, ..., n'-1, whether it appends (a URL that is
    not blank) or does nothing (a blank URL). *)
Theorem handleAddImage_orders (st : FormState) :
  order <$> images (formData st) = seq 0 (length (images (formData st))) ->
  let st' := handleAddImage st in
  order <$> images (formData st') = seq 0 (length (images (formData st'))) /\
  length (images (formData st'))
  = (if truthy (trim (input_url (imageInput st)))
     then S (length (images (formData st)))
     else length (images (formData st))).
Proof.
  intros Hord. unfold handleAddImage.
  destruct (truthy (trim (input_url (imageInput st)))); [|done].
  cbn [formData setImageInput setFormData images withImages].
  rewrite fmap_app, length_app, Hord. cbn [fmap list_fmap length order].
  rewrite Nat.add_1_r, List.seq_S. done.
Qed.

Lemma handleAddImage_orders_witness :
  let st := setImageInput (mkImageInput (js "http://x/c.png") (js "c") []) twoImagesDraft in
  let st' := handleAddImage st in
  order <$> images (formData st') = seq 0 (length (images (formData st'))) /\
  length (images (formData st'))
  = (if truthy (trim (input_url (imageInput st)))
     then S (length (images (formData st)))
     else length (images (formData st))).
Proof.
  exact (handleAddImage_orders
           (setImageInput (mkImageInput (js "http://x/c.png") (js "c") []) twoImagesDraft)
           eq_refl).
Defined.

(** ** Staging a picture *)

(** A dropped picture is staged and, once read, previewed; a dropped text
    file is ignored. *)
Example handleDrop_picture_and_text :
  let picture := mkFile (js "cover.png") (js "image/png") in
  let notes := mkFile (js "notes.txt") (js "text/plain") in
  let dataUrlOf := fun f : File => js "data:" ++ file_type f in
  let loaded := handleDropAndRead dataUrlOf [picture; notes] helloWorldDraft in
  snd (handleDrop [picture; notes] helloWorldDraft) = [ReadAsDataURL picture] /\
  featuredImageFile loaded = Some picture /\
  featuredImagePreview loaded = js "data:image/png" /\
  handleDropAndRead dataUrlOf [notes; picture] helloWorldDraft = helloWorldDraft.
Proof. repeat split; reflexivity. Qed.

(** X12: a drop stages the first dropped file and starts reading it as a
    data URL if its MIME type starts with "image/"; otherwise (no file, or
    another type) it changes nothing and starts no read.  After a drop the
    staged file is the one from before or a picture.  The handler itself
    changes the staged file only; when the read it started is done, the
    preview is the data URL of the dropped picture, and the draft, the
    errors and the two input rows are still those from before the drop. *)
Theorem handleDrop_spec (files : list File) (st : FormState) :
  let st' := fst (handleDrop files st) in
  let reads := snd (handleDrop files st) in
  (forall f, featuredImageFile st' = Some f ->
             featuredImageFile st = Some f \/
             (head files = Some f /\ startsWith (js "image/") (file_type f) = true)) /\
  (forall f, head files = Some f ->
             startsWith (js "image/") (file_type f) = true ->
             featuredImageFile st' = Some f /\ reads = [ReadAsDataURL f]) /\
  (forall f, head files = Some f ->
             startsWith (js "image/") (file_type f) = false ->
             st' = st /\ reads = []) /\
  (files = [] -> st' = st /\ reads = []) /\
  st' = setFeaturedImageFile (featuredImageFile st') st /\
  forall dataUrlOf : File -> jsstring,
    let loaded := handleDropAndRead dataUrlOf files st in
    featuredImagePreview loaded
    = match reads with
      | ReadAsDataURL f :: _ => dataUrlOf f
      | [] => featuredImagePreview st
      end /\
    loaded = setFeaturedImagePreview (featuredImagePreview loaded) st'.
Proof.
  assert (Heta : forall s : FormState, s = setFeaturedImageFile (featuredImageFile s) s)
    by (by intros []).
  assert (Heta' : forall s : FormState,
             s = setFeaturedImagePreview (featuredImagePreview s) s)
    by (by intros []).
  unfold handleDropAndRead, handleDrop. destruct files as [|file rest]; cbn [head].
  - cbn [fst snd foldl].
    split; [auto|]. split; [done|]. split; [done|]. split; [done|].
    split; [apply Heta|]. intros dataUrlOf. split; [done | apply Heta'].
  - destruct (startsWith (js "image/") (file_type file)) eqn:Himg;
      cbn [fst snd foldl readDone previewLoaded].
    + cbn [featuredImageFile setFeaturedImageFile].
      split; [intros f [= <-]; by right|].
      split; [by intros f [= <-]|].
      split; [intros f [= <-]; congruence|].
      split; [done|]. split; [done|].
      intros dataUrlOf. split; reflexivity.
    + split; [auto|].
      split; [intros f [= <-]; congruence|].
      split; [done|]. split; [done|].
      split; [apply Heta|]. intros dataUrlOf. split; [done | apply Heta'].
Qed.

Lemma newErrors_featuredImage_staged blog st :
  is_Some (featuredImageFile st) -> newErrors blog st !! "featuredImage" = None.
Proof.
  intros [f Hf]. unfold newErrors. rewrite Hf.
  rewrite bool_decide_eq_true_2 by eauto. cbn [negb andb].
  repeat match goal with
    | |- context [if ?b then _ else _] => destruct b
    end; reflexivity.
Qed.

(** X13: the file input stages the first chosen file, whatever its type,
    and leaves the draft alone; with that file staged, validation does not
    ask for a featured image, whatever the URL field holds, and the payload
    is built with an empty [featuredImage]. *)
Theorem staged_file_meets_image_rule blog (files : list File) (st : FormState) :
  files <> [] ->
  let st' := handleFeaturedImageChange files st in
  featuredImageFile st' = head files /\
  errors (snd (validateForm blog st')) !! "featuredImage" = None /\
  featuredImage (submitData st') = [] /\
  formData st' = formData st.
Proof.
  intros Hne. destruct files as [|file rest]; [done|].
  cbn [handleFeaturedImageChange head].
  split; [done|]. split; [|done].
  unfold validateForm. cbn [snd errors setErrors].
  apply newErrors_featuredImage_staged. cbn. eauto.
Qed.

Lemma staged_file_meets_image_rule_witness :
  let st' := handleFeaturedImageChange
               [mkFile (js "notes.txt") (js "text/plain")] initialFormState in
  featuredImageFile st' = head [mkFile (js "notes.txt") (js "text/plain")] /\
  errors (snd (validateForm None st')) !! "featuredImage" = None /\
  featuredImage (submitData st') = [] /\
  formData st' = formData initialFormState.
Proof.
  apply (staged_file_meets_image_rule None
           [mkFile (js "notes.txt") (js "text/plain")] initialFormState).
  discriminate.
Defined.

(** ** The effect and validation together *)

Lemma trim_nonblank_nonempty s : trim s <> [] -> s <> [].
Proof. intros Ht ->. by apply Ht. Qed.

(** X14: an entity opened for editing passes validation as it is exactly
    when its title, excerpt, content and slug are present and not blank
    and its [featuredImage] is present and not empty. *)
Theorem blogEffect_valid_iff (b : Blog) (st : FormState) :
  fst (validateForm (Some b) (blogEffect (Some b) st)) = true <->
  trim (orEmpty (blog_title b)) <> [] /\
  trim (orEmpty (blog_excerpt b)) <> [] /\
  trim (orEmpty (blog_content b)) <> [] /\
  trim (orEmpty (blog_slug b)) <> [] /\
  orEmpty (blog_featuredImage b) <> [].
Proof.
  rewrite validateForm_ok_iff. unfold submittable.
  cbn [blogEffect formData featuredImageFile setErrors setFeaturedImageFile
         setFeaturedImagePreview setFormData
         title excerpt content slug featuredImage].
  split.
  - intros (Ht & He & Hc & Hs & Hi). repeat split; try done.
    destruct Hi as [[? [=]]|[Hu|(b' & [= <-] & Hne)]]; [|done].
    by apply trim_nonblank_nonempty.
  - intros (Ht & He & Hc & Hs & Hi). repeat split; try done.
    right. right. by exists b.
Qed.

(** ** More on the page *)

(** X15: [loadBlogs] always ends with [loading] off and asks for the
    current page, ten per page, newest first, unpublished included, with
    the search term only if it is not empty.  A page that arrives replaces
    the list and the page count and clears the error; a failure keeps the
    list and the page count and shows its message.  Selection, modes and
    the held identifier are not touched. *)
Theorem loadBlogs_spec (fetched : Fetched) (st : PageState) :
  let st' := fst (loadBlogs fetched st) in
  loading st' = false /\
  snd (loadBlogs fetched st)
  = [GetBlogs {| page := currentPage st; limit := 10;
                 search := match searchTerm st with [] => None | _ => Some (searchTerm st) end;
                 sortBy := js "publishedAt"; sortOrder := js "desc";
                 includeUnpublished := true |}] /\
  match fetched with
  | FetchedPage data pages =>
      blogs st' = data /\ totalPages st' = pages /\ error st' = None
  | FetchFailed err =>
      blogs st' = blogs st /\ totalPages st' = totalPages st /\
      error st' = Some (messageOr err (js "Failed to load blogs"))
  end /\
  st' = setLoading false
          (setError (error st') (setBlogsPage (blogs st') (totalPages st') st)).
Proof.
  unfold loadBlogs. cbn [fst snd].
  split; [done|]. split; [by destruct (searchTerm st)|].
  destruct fetched; repeat split; reflexivity.
Qed.

(** X16: [handleCreateBlog] never rejects and always ends with
    [formLoading] off.  If the service accepts the post the page goes to
    the list and fetches it again; if it refuses, nothing is fetched, the
    page stays where it was (view mode, selection, list) and the message
    of the failure is shown. *)
Theorem handleCreateBlog_spec created fetched blogData file (st : PageState) :
  let result := handleCreateBlog created fetched blogData file st in
  let st' := fst (fst result) in
  snd result = Fulfilled /\
  formLoading st' = false /\
  match created with
  | Fulfilled =>
      viewMode st' = ModeList /\
      snd (fst result)
      = CreateBlog blogData file :: snd (loadBlogs fetched st) /\
      st' = setFormLoading false
              (fst (loadBlogs fetched (setViewMode ModeList (setFormLoading true st))))
  | Rejected err =>
      snd (fst result) = [CreateBlog blogData file] /\
      error st' = Some (messageOr err (js "Failed to create blog")) /\
      st' = setFormLoading false (setError (error st') st)
  end.
Proof.
  unfold handleCreateBlog. destruct created as [|err].
  - destruct fetched; repeat split; reflexivity.
  - repeat split; reflexivity.
Qed.

(** X17: [handleUpdateBlog] with no entity selected, or with one whose
    identifier is empty, calls no service: it shows "No blog selected for
    update", turns [formLoading] off, leaves everything else alone, and
    its promise fulfils. *)
Theorem handleUpdateBlog_without_selection updated fetched blogData file
    (st : PageState) :
  (selectedBlog st = None \/ exists b, selectedBlog st = Some b /\ _id b = []) ->
  let result := handleUpdateBlog updated fetched blogData file st in
  snd result = Fulfilled /\
  snd (fst result) = [ConsoleLog] /\
  fst (fst result)
  = setFormLoading false
      (setError (Some (js "No blog selected for update")) st).
Proof.
  unfold handleUpdateBlog. intros [Hs|(b & Hs & Hid)]; rewrite Hs.
  - repeat split; reflexivity.
  - rewrite Hid. repeat split; reflexivity.
Qed.

Lemma handleUpdateBlog_without_selection_witness :
  let result := handleUpdateBlog Fulfilled (FetchedPage [] 1)
                  (formData helloWorldDraft) None initialPageState in
  snd result = Fulfilled /\
  snd (fst result) = [ConsoleLog] /\
  fst (fst result)
  = setFormLoading false
      (setError (Some (js "No blog selected for update")) initialPageState).
Proof.
  apply (handleUpdateBlog_without_selection Fulfilled (FetchedPage [] 1)
           (formData helloWorldDraft) None initialPageState).
  by left.
Defined.

(** X18: [handleUpdateBlog] with an entity selected sends the update for
    the identifier of that entity; on success the page goes to the list,
    drops the selection and fetches again; on failure nothing is fetched,
    the selection and the view mode stay and the message is shown.
    [formLoading] ends off either way. *)
Theorem handleUpdateBlog_with_selection updated fetched blogData file
    (st : PageState) (b : Blog) :
  selectedBlog st = Some b ->
  _id b <> [] ->
  let result := handleUpdateBlog updated fetched blogData file st in
  let st' := fst (fst result) in
  snd result = Fulfilled /\
  formLoading st' = false /\
  UpdateBlog (_id b) blogData file ∈ snd (fst result) /\
  match updated with
  | Fulfilled =>
      viewMode st' = ModeList /\ selectedBlog st' = None /\
      (exists params, GetBlogs params ∈ snd (fst result))
  | Rejected err =>
      viewMode st' = viewMode st /\ selectedBlog st' = Some b /\
      blogs st' = blogs st /\
      (forall params, GetBlogs params ∉ snd (fst result)) /\
      error st' = Some (messageOr err (js "Failed to update blog"))
  end.
Proof.
  intros Hs Hid. apply truthy_true in Hid.
  unfold handleUpdateBlog. rewrite Hs, Hid.
  destruct updated as [|err].
  - destruct fetched; cbn; repeat split; try done; try set_solver;
      eexists; set_solver.
  - cbn. repeat split; try done; set_solver.
Qed.

Lemma handleUpdateBlog_with_selection_witness :
  let st := handleEditBlog newsBlog initialPageState in
  let result := handleUpdateBlog (Rejected (ErrorObject (js "Network Error")))
                  (FetchedPage [] 1) (formData helloWorldDraft) None st in
  let st' := fst (fst result) in
  snd result = Fulfilled /\
  formLoading st' = false /\
  UpdateBlog (_id newsBlog) (formData helloWorldDraft) None ∈ snd (fst result) /\
  viewMode st' = viewMode st /\ selectedBlog st' = Some newsBlog /\
  blogs st' = blogs st /\
  (forall params, GetBlogs params ∉ snd (fst result)) /\
  error st' = Some (messageOr (ErrorObject (js "Network Error"))
                      (js "Failed to update blog")).
Proof.
  apply (handleUpdateBlog_with_selection (Rejected (ErrorObject (js "Network Error")))
           (FetchedPage [] 1) (formData helloWorldDraft) None
           (handleEditBlog newsBlog initialPageState) newsBlog).
  - reflexivity.
  - discriminate.
Defined.

(** X19: [handleDeleteBlog] sends the delete for the identifier it is
    given.  If the service refuses, the identifier stays held, nothing is
    fetched and the message is shown; if it accepts, the held identifier
    is let go and the list is fetched again. *)
Theorem handleDeleteBlog_spec deleted fetched (id : jsstring) (st : PageState) :
  let st' := fst (handleDeleteBlog deleted fetched id st) in
  let effs := snd (handleDeleteBlog deleted fetched id st) in
  head effs = Some (DeleteBlog id) /\
  match deleted with
  | Fulfilled =>
      showDeleteConfirm st' = None /\
      effs = DeleteBlog id :: snd (loadBlogs fetched st) /\
      st' = fst (loadBlogs fetched (setShowDeleteConfirm None st))
  | Rejected err =>
      showDeleteConfirm st' = showDeleteConfirm st /\
      effs = [DeleteBlog id] /\
      st' = setError (Some (messageOr err (js "Failed to delete blog"))) st
  end.
Proof.
  unfold handleDeleteBlog. destruct deleted as [|err].
  - destruct fetched; repeat split; reflexivity.
  - repeat split; reflexivity.
Qed.

(** X20: none of the page's handlers but [handleDeleteBlog] lets go of a
    held identifier, or holds one: opening, viewing, creating, cancelling
    and saving leave [showDeleteConfirm] as it is, whatever the services
    answer. *)
Theorem held_identifier_survives (st : PageState) (b : Blog)
    saved fetched blogData file :
  showDeleteConfirm (handleEditBlog b st) = showDeleteConfirm st /\
  showDeleteConfirm (handleViewBlog b st) = showDeleteConfirm st /\
  showDeleteConfirm (handleNewBlog st) = showDeleteConfirm st /\
  showDeleteConfirm (handleCancel st) = showDeleteConfirm st /\
  showDeleteConfirm (fst (loadBlogs fetched st)) = showDeleteConfirm st /\
  showDeleteConfirm (fst (fst (handleCreateBlog saved fetched blogData file st)))
  = showDeleteConfirm st /\
  showDeleteConfirm (fst (fst (handleUpdateBlog saved fetched blogData file st)))
  = showDeleteConfirm st.
Proof.
  repeat split; try reflexivity.
  - apply loadBlogs_showDeleteConfirm.
  - apply handleCreateBlog_page.
  - apply handleUpdateBlog_page.
Qed.

Lemma pageOnSave_fulfils pst saved fetched blogData file :
  pageOnSave pst saved fetched blogData file = Fulfilled.
Proof.
  unfold pageOnSave. destruct (formMode pst).
  - apply handleCreateBlog_never_rejects.
  - apply handleUpdateBlog_never_rejects.
Qed.

(** X21: with the callbacks the page passes as [onSave], the form never
    shows "Error saving blog": both callbacks catch the failures of the
    service and fulfil, so the only alert a submit can raise is the one
    about form errors, and a submit that passes validation raises none. *)
Theorem page_callbacks_never_alert blog isLoading (pst : PageState) saved fetched
    (st : FormState) (message : jsstring) :
  message ∈ alerts (snd (fst (handleSubmit blog isLoading
                                (pageOnSave pst saved fetched) st))) ->
  message = js "Please fix the form errors before submitting" /\
  fst (validateForm blog st) = false /\
  isLoading = false.
Proof.
  destruct isLoading; [rewrite handleSubmit_loading; cbn; set_solver|].
  destruct (fst (validateForm blog st)) eqn:Hv.
  - rewrite handleSubmit_valid by done. rewrite pageOnSave_fulfils. cbn. set_solver.
  - rewrite handleSubmit_invalid by done. cbn. intros Hin.
    apply list_elem_of_singleton in Hin. done.
Qed.

Lemma page_callbacks_never_alert_witness :
  js "Please fix the form errors before submitting"
  = js "Please fix the form errors before submitting" /\
  fst (validateForm None initialFormState) = false /\
  false = false.
Proof.
  apply (page_callbacks_never_alert None false initialPageState
           (Rejected (ErrorObject (js "Network Error"))) (FetchedPage [] 1)
           initialFormState).
  apply list_elem_of_here.
Defined.

Lemma pageStep_editHasSelection st ev :
  editHasSelection st -> editHasSelection (fst (pageStep st ev)).
Proof.
  unfold editHasSelection. intros Hinv.
  destruct ev as [|b|b| |blogData file saved fetched| |b|deleted fetched|];
    cbn [pageStep fst].
  - cbn. discriminate.
  - cbn. eauto.
  - cbn. discriminate.
  - cbn. discriminate.
  - destruct (viewMode st) eqn:Hv; cbn [fst]; [by rewrite Hv| |by rewrite Hv].
    destruct (formMode st) eqn:Hf.
    + unfold handleCreateBlog. destruct saved; [destruct fetched|]; cbn;
        rewrite ?Hf; discriminate.
    + specialize (Hinv eq_refl eq_refl). destruct Hinv as [b Hb].
      unfold handleUpdateBlog. rewrite Hb.
      destruct (truthy (_id b)); [destruct saved; [destruct fetched|]|];
        cbn; rewrite ?Hb; first [discriminate | eauto].
  - destruct (viewMode st) eqn:Hv; cbn [fst]; [by rewrite Hv|by rewrite Hv|].
    destruct (selectedBlog st); cbn; rewrite Hv; discriminate.
  - done.
  - destruct (showDeleteConfirm st); [|done].
    unfold handleDeleteBlog. destruct deleted; [destruct fetched|]; cbn; done.
  - done.
Qed.

(** X22: whatever happens on the page, the form in edit mode has an
    entity to edit: in every state reached from the initial one, view mode
    "form" with form mode "edit" comes with a selected blog.  (The delete
    dialog, modelled from the spec, does not touch these three fields.) *)
Theorem edit_form_has_entity (evs : list PageEvent) :
  editHasSelection (pageAfter initialPageState evs).
Proof.
  assert (Hgen : forall st, editHasSelection st -> editHasSelection (pageAfter st evs)).
  { induction evs as [|ev rest IH]; intros st Hinv; [done|].
    cbn [pageAfter]. apply IH. by apply pageStep_editHasSelection. }
  apply Hgen. unfold editHasSelection. cbn. discriminate.
Qed.

(** ** More on the request interceptor *)

(** X23: running the interceptor on its own result changes no header and
    nothing else of the request: every header reads the same after two
    passes as after one. *)
Theorem requestInterceptor_twice {H : Type} `{HeaderObject H}
    (laws : HeaderLaws H) (env : Ambient) (config : @RequestConfig H) (name : string) :
  let once := requestInterceptor env config in
  let twice := requestInterceptor env once in
  readHeader twice name = readHeader once name /\
  twice = withHeaders (headers twice) once.
Proof.
  unfold requestInterceptor.
  destruct (hasWindow env); [|by destruct config].
  destruct (getItem env "admin_token") as [t|]; [|by destruct config].
  destruct (truthy t); [|by destruct config].
  destruct config as [b u m hs d]. cbn [headers].
  destruct hs as [[props|h]|]; unfold readHeader;
    cbn [headers withHeaders baseURL requestUrl method data]; (split; [|done]).
  - by rewrite insert_insert_eq.
  - destruct (sameHeaderName "Authorization" name) eqn:Hs.
    + by rewrite !(headerGet_set_same H laws).
    + by rewrite (headerGet_set_other H laws).
  - by rewrite insert_insert_eq.
Qed.

Lemma requestInterceptor_twice_witness :
  let once := requestInterceptor loggedIn jsonRequest in
  let twice := requestInterceptor loggedIn once in
  readHeader twice "Content-Type" = readHeader once "Content-Type" /\
  twice = withHeaders (headers twice) once.
Proof.
  exact (requestInterceptor_twice lowerCase_laws loggedIn jsonRequest "Content-Type").
Defined.
